(** * quest_log: the focus timer state machine and the session history

    A shallow embedding of [src/js/timer.js] (module [Timer]), of the
    session store with its statistics (module [History]) and of the
    handlers of [src/js/app.js] that drive the two (module [App]), with
    the properties of the specification stated and proved over them.

    Conventions of the embedding.
    - JavaScript numbers that hold seconds, thresholds and millisecond
      timestamps are integers here ([Z]).  A JavaScript number counts
      integers exactly up to 2^53 = 9007199254740992 in magnitude; the
      arithmetic of [Z] is that of the program as long as the values stay
      within that range, and a statement about counting down by one
      carries that bound.
    - The four callbacks [onTick], [onStateChange], [onComplete] and
      [onWarning] are single slots that the timer calls synchronously; a
      call is recorded as an [event], and every operation returns the new
      timer together with the events it fired, in firing order.  A
      handler is taken not to call back into the timer while it runs;
      what the application does in a handler is a later call here.
    - [new Date()] and [Date.now()] read a clock; the value read is an
      explicit argument (milliseconds since the epoch).  A function that
      reads the clock more than once in a call has one argument for each
      reading, in the order of the readings; nothing is assumed about
      how they relate.
    - [localStorage.setItem] can throw; [saveSessions] and [saveSetting]
      catch the exception and go on.  Whether the write goes through is
      an explicit argument [written].
    - [setInterval] / [clearInterval]: the timer holds at most one handle;
      [intervalId] is [true] when a handle is held and [false] for [null]. *)

From stdpp Require Import base tactics option list gmap sets strings pretty.
From Stdlib Require Import ZArith Lia.

Local Open Scope Z_scope.

(* ================================================================== *)
(** ** Timer *)
(* ================================================================== *)

Module Timer.

(** [state]: 'idle', 'running' or 'paused'.  The comment in the source
    also lists 'break', but no assignment ever stores it. *)
Inductive state_t : Set := idle | running | paused.

#[global] Instance state_t_eq_dec : EqDecision state_t.
Proof. solve_decision. Defined.

(** The object returned by [formatTime]. *)
Record FormattedTime : Set := mkFormattedTime {
  hours : string;
  minutes : string;
  seconds : string;
  formatted : string
}.

(** The payload handed to [onComplete]. [startTime] is [sessionStartTime],
    which is [null] until the first start. *)
Record SessionData : Set := mkSessionData {
  duration : Z;
  startTime : option Z;
  endTime : Z;
  completed : bool;
  wasBreak : bool
}.

Inductive event : Set :=
| OnTick (time : FormattedTime) (remaining : Z)
| OnStateChange (st : state_t) (brk : option bool)
| OnComplete (payload : SessionData)
| OnWarning (threshold : Z).

(** The module-level variables of the closure. *)
Record timer : Type := mkTimer {
  state : state_t;
  totalSeconds : Z;
  remainingSeconds : Z;
  intervalId : bool;
  sessionStartTime : option Z;
  isBreak : bool;
  triggeredWarnings : gset Z
}.

Definition initial : timer :=
  {| state := idle; totalSeconds := 14400; remainingSeconds := 14400;
     intervalId := false; sessionStartTime := None; isBreak := false;
     triggeredWarnings := ∅ |}.

Definition WARNING_THRESHOLDS : list Z := [300; 60].

(** *** A small command monad: state passing plus the fired events *)

Definition action : Type := timer → timer * list event.

Definition skip : action := λ t, (t, []).
Definition emit (e : event) : action := λ t, (t, [e]).
Definition update (f : timer → timer) : action := λ t, (f t, []).
Definition andThen (a b : action) : action :=
  λ t, let '(t1, e1) := a t in let '(t2, e2) := b t1 in (t2, e1 ++ e2).
Definition reading {A} (get : timer → A) (k : A → action) : action :=
  λ t, k (get t) t.

Notation "a >>> b" := (andThen a b) (at level 60, right associativity).
Notation "'let!' x ':=' g 'in' k" := (reading g (λ x, k))
  (at level 60, x name, g at level 59, k at level 200, right associativity).

Definition after (a : action) (t : timer) : timer := (a t).1.
Definition fired (a : action) (t : timer) : list event := (a t).2.

(** Field assignments. *)
Definition set_state (v : state_t) (t : timer) : timer :=
  mkTimer v (totalSeconds t) (remainingSeconds t) (intervalId t)
          (sessionStartTime t) (isBreak t) (triggeredWarnings t).
Definition set_totalSeconds (v : Z) (t : timer) : timer :=
  mkTimer (state t) v (remainingSeconds t) (intervalId t)
          (sessionStartTime t) (isBreak t) (triggeredWarnings t).
Definition set_remainingSeconds (v : Z) (t : timer) : timer :=
  mkTimer (state t) (totalSeconds t) v (intervalId t)
          (sessionStartTime t) (isBreak t) (triggeredWarnings t).
Definition set_intervalId (v : bool) (t : timer) : timer :=
  mkTimer (state t) (totalSeconds t) (remainingSeconds t) v
          (sessionStartTime t) (isBreak t) (triggeredWarnings t).
Definition set_sessionStartTime (v : option Z) (t : timer) : timer :=
  mkTimer (state t) (totalSeconds t) (remainingSeconds t) (intervalId t)
          v (isBreak t) (triggeredWarnings t).
Definition set_isBreak (v : bool) (t : timer) : timer :=
  mkTimer (state t) (totalSeconds t) (remainingSeconds t) (intervalId t)
          (sessionStartTime t) v (triggeredWarnings t).
Definition set_triggeredWarnings (v : gset Z) (t : timer) : timer :=
  mkTimer (state t) (totalSeconds t) (remainingSeconds t) (intervalId t)
          (sessionStartTime t) (isBreak t) v.

(** [clearInterval(intervalId); intervalId = null;] *)
Definition clearInterval : action := update (set_intervalId false).

(** *** formatTime *)

(** [String(n).padStart(2, '0')] *)
Definition padStart2 (s : string) : string :=
  match s with
  | EmptyString => "00"
  | String _ EmptyString => "0" +:+ s
  | _ => s
  end.

(** [Math.floor(x / d)] is [x `div` d] (floor) and [x % d] is [Z.rem]
    (the sign follows the dividend). *)
Definition formatTime (secs : Z) : FormattedTime :=
  let h := secs `div` 3600 in
  let m := (Z.rem secs 3600) `div` 60 in
  let s := Z.rem secs 60 in
  {| hours := padStart2 (pretty h);
     minutes := padStart2 (pretty m);
     seconds := padStart2 (pretty s);
     formatted := padStart2 (pretty h) +:+ ":" +:+ padStart2 (pretty m)
                  +:+ ":" +:+ padStart2 (pretty s) |}.

(** [onTick(formatTime(remainingSeconds), remainingSeconds)] *)
Definition fireTick : action :=
  let! r := remainingSeconds in emit (OnTick (formatTime r) r).

(** *** complete *)

(** The local [duration = totalSeconds - remainingSeconds] of the source
    is computed and never used; the payload carries [totalSeconds]. *)
Definition complete (now : Z) : action :=
  clearInterval >>>
  let! was := isBreak in
  update (set_state idle) >>>
  update (set_isBreak false) >>>
  (let! t := id in
   emit (OnComplete {| duration := totalSeconds t;
                       startTime := sessionStartTime t;
                       endTime := now;
                       completed := true;
                       wasBreak := was |})) >>>
  let! st := state in emit (OnStateChange st None).

(** *** tick *)

(** One round of the [forEach] over the thresholds. *)
Definition checkThreshold (threshold : Z) : action :=
  let! t := id in
  if bool_decide (remainingSeconds t = threshold)
     && negb (bool_decide (threshold ∈ triggeredWarnings t))
  then update (set_triggeredWarnings ({[threshold]} ∪ triggeredWarnings t)) >>>
       emit (OnWarning threshold)
  else skip.

Definition forEach {A} (f : A → action) (l : list A) : action :=
  foldr (λ x k, f x >>> k) skip l.

Definition tick (now : Z) : action :=
  let! r := remainingSeconds in
  if bool_decide (r ≤ 0) then complete now
  else
    update (set_remainingSeconds (r - 1)) >>>
    forEach checkThreshold WARNING_THRESHOLDS >>>
    fireTick.

(** *** start, pause, toggle *)

Definition start (now : Z) : action :=
  let! st := state in
  if bool_decide (st = running) then skip
  else
    (if bool_decide (st = idle)
     then update (set_sessionStartTime (Some now)) >>>
          update (set_triggeredWarnings ∅)
     else skip) >>>
    update (set_state running) >>>
    update (set_intervalId true) >>>
    let! t := id in emit (OnStateChange (state t) (Some (isBreak t))).

Definition pause : action :=
  let! st := state in
  if bool_decide (st ≠ running) then skip
  else
    update (set_state paused) >>>
    clearInterval >>>
    let! st' := state in emit (OnStateChange st' None).

Definition toggle (now : Z) : action :=
  let! st := state in
  if bool_decide (st = running) then pause else start now.

(** *** reset, abort *)

Definition reset : action :=
  clearInterval >>>
  update (set_state idle) >>>
  (let! tot := totalSeconds in update (set_remainingSeconds tot)) >>>
  update (set_isBreak false) >>>
  update (set_triggeredWarnings ∅) >>>
  fireTick >>>
  let! st := state in emit (OnStateChange st None).

Definition abort (now : Z) : action :=
  let! t0 := id in
  let dur := totalSeconds t0 - remainingSeconds t0 in
  let startT := sessionStartTime t0 in
  clearInterval >>>
  update (set_state idle) >>>
  (let! tot := totalSeconds in update (set_remainingSeconds tot)) >>>
  update (set_isBreak false) >>>
  update (set_triggeredWarnings ∅) >>>
  (if bool_decide (dur > 60)
   then emit (OnComplete {| duration := dur;
                            startTime := startT;
                            endTime := now;
                            completed := false;
                            wasBreak := false |})
   else skip) >>>
  fireTick >>>
  let! st := state in emit (OnStateChange st None).

(** *** setTime, adjustTime, startBreak *)

(** [Math.max(60, Math.min(seconds, 43200))] *)
Definition clampTime (secs : Z) : Z := Z.max 60 (Z.min secs 43200).

Definition setTime (secs : Z) : action :=
  let! st := state in
  if bool_decide (st = running) then skip
  else
    update (set_totalSeconds (clampTime secs)) >>>
    (let! tot := totalSeconds in update (set_remainingSeconds tot)) >>>
    fireTick.

Definition adjustTime (delta : Z) : action :=
  let! st := state in
  if bool_decide (st = running) then skip
  else
    let! tot := totalSeconds in
    setTime (tot + delta).

(** No test of [state] and no clamping here.  [now] is the clock
    reading of its own [new Date()], [startNow] the later one of the
    [new Date()] in [start()], which stamps the session again when the
    timer was Idle. *)
Definition startBreak (now startNow : Z) (breakSeconds : Z) : action :=
  update (set_totalSeconds breakSeconds) >>>
  update (set_remainingSeconds breakSeconds) >>>
  update (set_isBreak true) >>>
  update (set_sessionStartTime (Some now)) >>>
  update (set_triggeredWarnings ∅) >>>
  fireTick >>>
  start startNow.

(** *** Sequences of calls *)

(** [tick] invoked once per element of [nows], the clock readings. *)
Definition ticks (nows : list Z) : action := forEach tick nows.

(** Clock readings of [n] interval firings, one second apart. *)
Fixpoint everySecond (t0 : Z) (n : nat) : list Z :=
  match n with
  | O => []
  | S n' => (t0 + 1000) :: everySecond (t0 + 1000) n'
  end.

(** What the environment can do to the timer: the methods of the public
    interface, and the interval calling [tick] while a handle is held. *)
Inductive call : Set :=
| Start (now : Z)
| Pause
| Toggle (now : Z)
| Reset
| Abort (now : Z)
| SetTime (secs : Z)
| AdjustTime (delta : Z)
| StartBreak (now startNow : Z) (breakSeconds : Z)
| IntervalFires (now : Z).

Definition exec (c : call) : action :=
  match c with
  | Start now => start now
  | Pause => pause
  | Toggle now => toggle now
  | Reset => reset
  | Abort now => abort now
  | SetTime secs => setTime secs
  | AdjustTime delta => adjustTime delta
  | StartBreak now startNow b => startBreak now startNow b
  | IntervalFires now =>
      let! held := intervalId in if held then tick now else skip
  end.

Definition run (cs : list call) : action := forEach exec cs.

(** States reachable from the initial one by calls that satisfy [ok]. *)
Inductive reachable_by (ok : call → Prop) : timer → Prop :=
| reach_initial : reachable_by ok initial
| reach_call t c :
    reachable_by ok t → ok c → reachable_by ok (after (exec c) t).

Definition reachable : timer → Prop := reachable_by (λ _, True).

(** The argument of every [startBreak] lies in [lo, hi]. *)
Definition breakWithin (lo hi : Z) (c : call) : Prop :=
  match c with
  | StartBreak _ _ b => lo ≤ b ≤ hi
  | _ => True
  end.

(** The argument of every [startBreak] is at least [lo]. *)
Definition breakAtLeast (lo : Z) (c : call) : Prop :=
  match c with
  | StartBreak _ _ b => lo ≤ b
  | _ => True
  end.

(** A session lasts from the [start()] that leaves Idle until the timer
    is reset, aborted or turned into a break; those are the calls that
    clear [triggeredWarnings].  [sameSession c t] tells that call [c],
    made in state [t], is not one of them. *)
Definition sameSession (c : call) (t : timer) : bool :=
  match c with
  | Start _ | Toggle _ => bool_decide (state t ≠ idle)
  | Pause | SetTime _ | AdjustTime _ | IntervalFires _ => true
  | Reset | Abort _ | StartBreak _ _ _ => false
  end.

Fixpoint withinSession (cs : list call) (t : timer) : bool :=
  match cs with
  | [] => true
  | c :: cs' => sameSession c t && withinSession cs' (after (exec c) t)
  end.

(** *** Reading a trace *)

Definition completions (es : list event) : list SessionData :=
  omap (λ e, match e with OnComplete p => Some p | _ => None end) es.

Definition warnings (es : list event) : list Z :=
  omap (λ e, match e with OnWarning w => Some w | _ => None end) es.

Definition isWarning (e : event) : bool :=
  match e with OnWarning _ => true | _ => false end.
Definition isTick (e : event) : bool :=
  match e with OnTick _ _ => true | _ => false end.
Definition isComplete (e : event) : bool :=
  match e with OnComplete _ => true | _ => false end.
Definition isStateChange (e : event) : bool :=
  match e with OnStateChange _ _ => true | _ => false end.

(** [precedes p q es]: every event of [es] that satisfies [p] is fired
    before (sits at a smaller index than) every event that satisfies [q]. *)
Definition precedes (p q : event → bool) (es : list event) : Prop :=
  ∀ (i j : nat) e1 e2,
    es !! i = Some e1 → es !! j = Some e2 →
    p e1 = true → q e2 = true → (i < j)%nat.

(** [fresh a t]: run in [t], action [a] only adds to the set of fired
    thresholds, and the warnings it fires are distinct thresholds that
    were not in the set before and are in it afterwards. *)
Definition fresh (a : action) (t : timer) : Prop :=
  triggeredWarnings t ⊆ triggeredWarnings (after a t)
  ∧ NoDup (warnings (fired a t))
  ∧ ∀ w, w ∈ warnings (fired a t) →
         (w ∉ triggeredWarnings t) ∧ w ∈ triggeredWarnings (after a t).

(** What holds of every reachable timer besides the bounds. *)
Definition coherent (t : timer) : Prop :=
  (intervalId t = true ↔ state t = running)
  ∧ (state t = idle → isBreak t = false)
  ∧ (sessionStartTime t = None →
     state t = idle ∧ remainingSeconds t = totalSeconds t).

(** 2^53: up to here a JavaScript number holds every integer, so that
    [remainingSeconds--] takes off exactly one. *)
Definition MAX_EXACT : Z := 9007199254740992.

(** The two-digit decimal numeral of [x], for [0 <= x < 100]: what a
    clock shows in one field. *)
Definition digitChar (d : Z) : Ascii.ascii :=
  Ascii.ascii_of_nat (48 + Z.to_nat d).
Definition twoDigits (x : Z) : string :=
  String (digitChar (x `div` 10)) (String (digitChar (x `mod` 10)) "").


End Timer.

(* ================================================================== *)
(** ** History *)
(* ================================================================== *)

Module History.

(** A stored session.  The store keeps [startTime] and [endTime] as the
    ISO-8601 strings that [Date.toISOString()] produced; such a string
    and the millisecond value of its [Date] determine each other, and
    the record holds the millisecond value.  [id] is [Date.now()]. *)
Record session : Set := mkSession {
  id : Z;
  startTime : Z;
  endTime : Z;
  duration : Z;
  completed : bool;
  wasBreak : bool
}.

(** [localStorage.getItem(STORAGE_KEY)] parsed: [None] when the key is
    absent or reading fails. *)
Definition storage : Set := option (list session).

(** [d.toISOString().split('T')[0]]: the UTC calendar date of [d].
    [toISOString] renders UTC, where every day has 86400000 ms, so two
    instants have the same date string exactly when they have the same
    day number [ms `div` 86400000]; the date string is represented by
    that day number. *)
Definition isoDate (ms : Z) : Z := ms `div` 86400000.

Definition getSessions (store : storage) : list session :=
  match store with
  | Some sessions => sessions
  | None => []
  end.

(** [saveSessions]: [localStorage.setItem] can throw (the quota is
    used up, storage is switched off); the error is caught and logged
    and the store keeps what it held.  [written] tells whether the
    write goes through. *)
Definition saveSessions (written : bool) (sessions : list session)
    (store : storage) : storage :=
  if written then Some sessions else store.

(** [addSession]: [startTime.toISOString()] throws on the [null] start
    time, which is the [None] result.  The new record is returned
    whether or not it could be written. *)
Definition addSession (now : Z) (written : bool) (data : Timer.SessionData)
    (store : storage) : option (session * storage) :=
  let sessions := getSessions store in
  match Timer.startTime data with
  | None => None
  | Some started =>
      let s := {| id := now;
                  startTime := started;
                  endTime := Timer.endTime data;
                  duration := Timer.duration data;
                  completed := Timer.completed data;
                  wasBreak := Timer.wasBreak data || false |} in
      let sessions := s :: sessions in
      let sessions :=
        if bool_decide (Z.of_nat (length sessions) > 1000)
        then removelast sessions else sessions in
      Some (s, saveSessions written sessions store)
  end.

Definition getTodayString (now : Z) : Z := isoDate now.

(** [s.startTime.startsWith(today) && !s.wasBreak] *)
Definition getTodaySessions (now : Z) (store : storage) : list session :=
  let today := getTodayString now in
  List.filter
    (λ s, bool_decide (isoDate (startTime s) = today) && negb (wasBreak s))
    (getSessions store).

Definition getTodayTotal (now : Z) (store : storage) : Z :=
  foldl (λ sum s, sum + duration s) 0
        (List.filter (λ s, completed s) (getTodaySessions now store)).

Definition formatDuration (secs : Z) : string :=
  let hours := secs `div` 3600 in
  let minutes := (Z.rem secs 3600) `div` 60 in
  if bool_decide (hours > 0)
  then pretty hours +:+ "h " +:+ pretty minutes +:+ "m"
  else pretty minutes +:+ "m".

Definition getCompletedCount (store : storage) : Z :=
  Z.of_nat (length (List.filter (λ s, completed s && negb (wasBreak s))
                                (getSessions store))).

(** The [while (true)] loop of [getStreak].  [fuel] bounds the number of
    iterations; [None] is the loop still running when it is used up. *)
Fixpoint streakLoop (fuel : nat) (dates : gset Z) (checkDate streak : Z)
  : option Z :=
  match fuel with
  | O => None
  | S fuel' =>
      let dateStr := isoDate checkDate in
      if bool_decide (dateStr ∈ dates)
      then streakLoop fuel' dates (checkDate - 86400000) (streak + 1)
      else Some streak
  end.

(** The dates with a completed focus session: the [Set] that [getStreak]
    fills. *)
Definition focusDates (store : storage) : gset Z :=
  let sessions := List.filter (λ s, completed s && negb (wasBreak s))
                              (getSessions store) in
  list_to_set ((λ s, isoDate (startTime s)) <$> sessions).

(** The clock readings of one call of [getStreak], in the order in
    which the source takes them: [getTodayString()] for [today],
    [Date.now()] for [yesterday], [new Date()] for [checkDate], and
    [Date.now()] once more when [checkDate] is moved to yesterday. *)
Record streakClock : Set := mkStreakClock {
  atToday : Z;
  atYesterday : Z;
  atCheck : Z;
  atCheckBack : Z
}.

(** [getStreak].  The array [sortedDates] of the source is built and
    never read.  The loop runs with one more unit of fuel than there
    are dates. *)
Definition getStreak (clock : streakClock) (store : storage) : option Z :=
  let sessions := List.filter (λ s, completed s && negb (wasBreak s))
                              (getSessions store) in
  if bool_decide (length sessions = 0%nat) then Some 0
  else
    let dates := focusDates store in
    let today := getTodayString (atToday clock) in
    let yesterday := isoDate (atYesterday clock - 86400000) in
    if negb (bool_decide (today ∈ dates))
       && negb (bool_decide (yesterday ∈ dates))
    then Some 0
    else
      let checkDate :=
        if negb (bool_decide (today ∈ dates))
        then atCheckBack clock - 86400000 else atCheck clock in
      streakLoop (S (size dates)) dates checkDate 0.

Record stats : Set := mkStats {
  todayTotal : Z;
  todayFormatted : string;
  completedCount : Z;
  abortedCount : Z;
  streak : Z;
  totalTime : Z;
  totalTimeFormatted : string
}.

(** The clock readings of one call of [getStats]: one in each of the
    two calls of [getTodayTotal()], then those of [getStreak()]. *)
Record statsClock : Set := mkStatsClock {
  atTodayTotal : Z;
  atTodayFormatted : Z;
  atStreak : streakClock
}.

(** A clock that does not move during the call. *)
Definition steadyStreak (now : Z) : streakClock :=
  {| atToday := now; atYesterday := now; atCheck := now; atCheckBack := now |}.
Definition steady (now : Z) : statsClock :=
  {| atTodayTotal := now; atTodayFormatted := now;
     atStreak := steadyStreak now |}.

(** All readings of the call fall on the UTC day [day]. *)
Definition streakWithinDay (clock : streakClock) (day : Z) : Prop :=
  isoDate (atToday clock) = day ∧ isoDate (atYesterday clock) = day
  ∧ isoDate (atCheck clock) = day ∧ isoDate (atCheckBack clock) = day.

Definition getStats (clock : statsClock) (store : storage) : option stats :=
  let sessions := getSessions store in
  let focusSessions := List.filter (λ s, negb (wasBreak s)) sessions in
  streak ← getStreak (atStreak clock) store;
  Some {| todayTotal := getTodayTotal (atTodayTotal clock) store;
          todayFormatted :=
            formatDuration (getTodayTotal (atTodayFormatted clock) store);
          completedCount :=
            Z.of_nat (length (List.filter (λ s, completed s) focusSessions));
          abortedCount :=
            Z.of_nat (length (List.filter (λ s, negb (completed s))
                                          focusSessions));
          streak := streak;
          totalTime := foldl (λ sum s, sum + duration s) 0 focusSessions;
          totalTimeFormatted :=
            formatDuration
              (foldl (λ sum s, sum + duration s) 0 focusSessions) |}.

(** The record [addSession] builds from a payload that has a start
    time. *)
Definition recordOf (now started : Z) (data : Timer.SessionData) : session :=
  {| id := now;
     startTime := started;
     endTime := Timer.endTime data;
     duration := Timer.duration data;
     completed := Timer.completed data;
     wasBreak := Timer.wasBreak data |}.

(** The list [addSession] stores: the new record first, the oldest one
    dropped when there were 1000 or more. *)
Definition pushed (s : session) (old : list session) : list session :=
  if bool_decide (1000 ≤ Z.of_nat (length old))
  then s :: removelast old else s :: old.

(** *** Recent sessions *)

(** [arr.slice(0, limit)]: a negative [limit] counts from the end. *)
Definition slice0 {A} (limit : Z) (l : list A) : list A :=
  if bool_decide (limit < 0)
  then take (Z.to_nat (Z.max (Z.of_nat (length l) + limit) 0)) l
  else take (Z.to_nat limit) l.

(** An element of the array [getRecentSessions] returns: the stored
    session (the spread [...s]) and the two formatted fields. *)
Record recentSession : Set := mkRecentSession {
  entry : session;
  durationFormatted : string;
  dateFormatted : string
}.

Section Locale.
(** [date.toLocaleTimeString('en-US', ...)] and
    [date.toLocaleDateString('en-US', ...)] depend on the time zone of
    the browser; they are taken as they come. *)
Variable toLocaleTimeString : Z → string.
Variable toLocaleDateString : Z → string.

(** The two clock readings of one call of [formatDate]:
    [getTodayString()] and, for a date that is not today, [Date.now()]. *)
Definition formatDate (readToday readYesterday : Z) (date : Z) : string :=
  let today := getTodayString readToday in
  let dateStr := isoDate date in
  if bool_decide (dateStr = today)
  then "Today " +:+ toLocaleTimeString date
  else
    let yesterday := isoDate (readYesterday - 86400000) in
    if bool_decide (dateStr = yesterday)
    then "Yesterday " +:+ toLocaleTimeString date
    else toLocaleDateString date +:+ " " +:+ toLocaleTimeString date.

(** [getRecentSessions(limit = 20)]: [None] is the omitted argument.
    [reads i] are the two clock readings of the [formatDate] call for
    the entry at index [i]. *)
Definition getRecentSessions (reads : nat → Z * Z) (limit : option Z)
    (store : storage) : list recentSession :=
  let limit := default 20 limit in
  imap (λ i s, {| entry := s;
                  durationFormatted := formatDuration (duration s);
                  dateFormatted :=
                    formatDate (reads i).1 (reads i).2 (startTime s) |})
       (slice0 limit (List.filter (λ s, negb (wasBreak s))
                                  (getSessions store))).
End Locale.

(** *** Settings and the two storage items *)

(** The setting values that [JSON.stringify] and [JSON.parse] give back
    unchanged: booleans, the integers a number holds exactly, strings
    and [null]. *)
Inductive value : Set :=
| VBool (b : bool)
| VNum (n : Z)
| VStr (s : string)
| VNull.

(** The two items of [localStorage] the module uses.  The settings item
    is [None] when the key is absent or cannot be read; a stored
    settings text is taken to be a JSON object, as [saveSetting] writes
    it. *)
Record localStorage : Type := mkLocalStorage {
  questlog_sessions : storage;
  questlog_settings : option (gmap string value)
}.

Definition getSettings (ls : localStorage) : gmap string value :=
  default ∅ (questlog_settings ls).

(** [settings[key] = value] on an object parsed from JSON: the key
    [__proto__], when it is not an own property, reaches the setter of
    [Object.prototype] and creates no property. *)
Definition assign (key : string) (v : value) (settings : gmap string value)
  : gmap string value :=
  if bool_decide (key = "__proto__") && bool_decide (settings !! key = None)
  then settings
  else <[key := v]> settings.

(** [saveSetting]: as for the sessions, a [setItem] that throws is
    caught and leaves the storage as it was; [written] tells whether the
    write goes through. *)
Definition saveSetting (written : bool) (key : string) (v : value)
    (ls : localStorage) : localStorage :=
  let settings := getSettings ls in
  if written
  then {| questlog_sessions := questlog_sessions ls;
          questlog_settings := Some (assign key v settings) |}
  else ls.

(** [settings.hasOwnProperty(key) ? settings[key] : defaultValue].  When
    the settings hold a key [hasOwnProperty], the method call finds that
    value, which is not a function, and throws: the [None] result. *)
Definition getSetting (key : string) (defaultValue : value) (ls : localStorage)
  : option value :=
  let settings := getSettings ls in
  match settings !! "hasOwnProperty" with
  | Some _ => None
  | None =>
      match settings !! key with
      | Some v => Some v
      | None => Some defaultValue
      end
  end.

(** [localStorage.removeItem(STORAGE_KEY)] *)
Definition clearAll (ls : localStorage) : localStorage :=
  {| questlog_sessions := None;
     questlog_settings := questlog_settings ls |}.

(** The dates not after [day]: what is left for the loop of [getStreak]
    to visit, the measure of its termination. *)
Definition upTo (day : Z) (dates : gset Z) : gset Z :=
  filter (λ d, d ≤ day) dates.

(** *** The specification's reading of the statistics *)

(** Day [day] has at least one completed non-break session. *)
Definition hasFocusSession (store : storage) (day : Z) : Prop :=
  ∃ s, s ∈ getSessions store
       ∧ completed s = true ∧ wasBreak s = false
       ∧ isoDate (startTime s) = day.

(** The local calendar day of an instant, in a browser whose
    [getTimezoneOffset()] is [offsetMinutes] (UTC minus local time): the
    day the specification means by "local today". *)
Definition localDay (offsetMinutes : Z) (ms : Z) : Z :=
  (ms - offsetMinutes * 60000) `div` 86400000.

(** The sum of the durations of the sessions that satisfy [keep]. *)
Definition sumDurations (keep : session → bool) (sessions : list session) : Z :=
  foldr Z.add 0 (duration <$> List.filter keep sessions).


End History.

(* ================================================================== *)
(** ** The application controller *)
(* ================================================================== *)

(** The part of [src/js/app.js] that drives the timer and the history:
    the handlers registered on the timer and the handlers of the
    buttons and keys.  What they do to the page, the sounds, the glitch
    effects and the keyboard switch is left out; none of it is read
    back by the code modelled here. *)
Module App.

Record app : Type := mkApp {
  timer : Timer.timer;
  sessions : History.storage;
  currentPreset : Z;
  lastCompletedDuration : Z;
  breakModal : bool
}.

(** The state after [init()], for a given content of the session store. *)
Definition initial (store : History.storage) : app :=
  {| timer := Timer.initial; sessions := store; currentPreset := 14400;
     lastCompletedDuration := 0; breakModal := false |}.

Definition set_timer (t : Timer.timer) (a : app) : app :=
  mkApp t (sessions a) (currentPreset a) (lastCompletedDuration a)
        (breakModal a).
Definition set_sessions (st : History.storage) (a : app) : app :=
  mkApp (timer a) st (currentPreset a) (lastCompletedDuration a)
        (breakModal a).
Definition set_currentPreset (v : Z) (a : app) : app :=
  mkApp (timer a) (sessions a) v (lastCompletedDuration a) (breakModal a).
Definition set_lastCompletedDuration (v : Z) (a : app) : app :=
  mkApp (timer a) (sessions a) (currentPreset a) v (breakModal a).
Definition set_breakModal (v : bool) (a : app) : app :=
  mkApp (timer a) (sessions a) (currentPreset a) (lastCompletedDuration a) v.

(** [handleComplete(sessionData)].  [idNow] is the [Date.now()] that
    [addSession] reads, [written] whether its write to the store goes
    through.  [None] is the exception of [addSession].  The
    [Timer.setTime] of the break branch fires a tick event, whose
    handler only redraws. *)
Definition handleComplete (idNow : Z) (written : bool)
    (data : Timer.SessionData) (a : app) : option app :=
  if Timer.wasBreak data
  then Some (set_timer (Timer.after (Timer.setTime (currentPreset a)) (timer a)) a)
  else
    '(_, store') ← History.addSession idNow written data (sessions a);
    let a := set_sessions store' a in
    let a := set_lastCompletedDuration (Timer.duration data) a in
    Some (if Timer.completed data then set_breakModal true a else a).

(** The handlers called for the events of one timer call, in firing
    order.  [handleTick], [handleStateChange] and [handleWarning] only
    redraw.  The handlers run while the timer call is still under way;
    the only one that touches the timer is the [setTime] of
    [handleComplete] for a finished break, called from [complete()],
    which afterwards only reads [state], and [setTime] does not change
    [state]: running the handlers after the call gives the same
    result. *)
Fixpoint deliver (idNow : Z) (written : bool) (es : list Timer.event)
    (a : app) : option app :=
  match es with
  | [] => Some a
  | Timer.OnComplete data :: es' =>
      a' ← handleComplete idNow written data a; deliver idNow written es' a'
  | _ :: es' => deliver idNow written es' a
  end.

(** A call of a timer method from the application. *)
Definition perform (act : Timer.action) (idNow : Z) (written : bool)
    (a : app) : option app :=
  let '(t', es) := act (timer a) in
  deliver idNow written es (set_timer t' a).

(** What the user and the browser do. *)
Inductive input : Set :=
| ToggleStart          (* the start button, Space *)
| ResetTimer           (* the reset button, R *)
| ConfirmAbort         (* the confirm button of the abort dialogue *)
| SetPreset (secs : Z) (* a preset button, 1 to 4 *)
| Adjust (delta : Z)   (* an adjust button, + and - *)
| ShortBreak
| LongBreak
| SkipBreak
| CloseBreakModal      (* a click beside the break dialogue *)
| Interval.            (* the interval calls [tick] *)

(** [now] and [idNow] are the first and the second clock reading of
    the handler: for the interval and the abort, the [new Date()] of the
    timer and the [Date.now()] of [addSession]; for the break buttons,
    the [new Date()] of [startBreak] and the one of [start()].
    [written] is the outcome of the write of [addSession], if there is
    one. *)
Definition react (i : input) (now idNow : Z) (written : bool) (a : app)
  : option app :=
  match i with
  | ToggleStart => perform (Timer.toggle now) idNow written a
  | ResetTimer =>
      a ← perform Timer.reset idNow written a;
      perform (Timer.setTime (currentPreset a)) idNow written a
  | ConfirmAbort => perform (Timer.abort now) idNow written a
  | SetPreset secs =>
      if bool_decide (Timer.state (timer a) = Timer.running) then Some a
      else perform (Timer.setTime secs) idNow written (set_currentPreset secs a)
  | Adjust delta =>
      a ← perform (Timer.adjustTime delta) idNow written a;
      Some (set_currentPreset (Timer.totalSeconds (timer a)) a)
  | ShortBreak =>
      perform (Timer.startBreak now idNow 300) idNow written
              (set_breakModal false a)
  | LongBreak =>
      perform (Timer.startBreak now idNow 900) idNow written
              (set_breakModal false a)
  | SkipBreak =>
      perform (Timer.setTime (currentPreset a)) idNow written
              (set_breakModal false a)
  | CloseBreakModal => Some (set_breakModal false a)
  | Interval => perform (Timer.exec (Timer.IntervalFires now)) idNow written a
  end.

(** The states the application reaches from [initial store], with any
    clock readings and whether or not the writes to the store go
    through. *)
Inductive reachable (store : History.storage) : app → Prop :=
| reach_init : reachable store (initial store)
| reach_react a i now idNow written a' :
    reachable store a → react i now idNow written a = Some a' →
    reachable store a'.

(** A sequence of inputs, each with its two clock readings and the
    outcome of its write. *)
Fixpoint reacts (inputs : list (input * Z * Z * bool)) (a : app)
  : option app :=
  match inputs with
  | [] => Some a
  | (i, now, idNow, written) :: rest =>
      a' ← react i now idNow written a; reacts rest a'
  end.

(** [n] firings of the interval, one second apart, from [t0]. *)
Definition intervals (t0 : Z) (n : nat) : list (input * Z * Z * bool) :=
  (λ now, (Interval, now, now, true)) <$> Timer.everySecond t0 n.

End App.

(* ================================================================== *)
(** ** Properties of the timer *)
(* ================================================================== *)

Module TimerFacts.
Import Timer.

(** *** Laws of sequencing *)

Lemma after_andThen (a b : action) t :
  after (a >>> b) t = after b (after a t).
Proof.
  unfold after, andThen. destruct (a t) as [t1 e1]. simpl.
  by destruct (b t1).
Qed.

Lemma fired_andThen (a b : action) t :
  fired (a >>> b) t = fired a t ++ fired b (after a t).
Proof.
  unfold fired, after, andThen. destruct (a t) as [t1 e1]. simpl.
  by destruct (b t1).
Qed.

Lemma forEach_nil {A} (f : A → action) t : forEach f [] t = (t, []).
Proof. reflexivity. Qed.

Lemma forEach_cons {A} (f : A → action) x l :
  forEach f (x :: l) = f x >>> forEach f l.
Proof. reflexivity. Qed.

Lemma after_forEach_app {A} (f : A → action) l1 l2 t :
  after (forEach f (l1 ++ l2)) t = after (forEach f l2) (after (forEach f l1) t).
Proof.
  revert t. induction l1 as [|x l1 IH]; intros t; [done|].
  rewrite <- app_comm_cons, !forEach_cons, !after_andThen. apply IH.
Qed.

Lemma fired_forEach_app {A} (f : A → action) l1 l2 t :
  fired (forEach f (l1 ++ l2)) t
  = fired (forEach f l1) t ++ fired (forEach f l2) (after (forEach f l1) t).
Proof.
  revert t. induction l1 as [|x l1 IH]; intros t; [done|].
  rewrite <- app_comm_cons, !forEach_cons, !fired_andThen, !after_andThen.
  rewrite IH. by rewrite app_assoc.
Qed.

Lemma completions_app es1 es2 :
  completions (es1 ++ es2) = completions es1 ++ completions es2.
Proof. apply omap_app. Qed.

Lemma warnings_app es1 es2 :
  warnings (es1 ++ es2) = warnings es1 ++ warnings es2.
Proof. apply omap_app. Qed.

(** Unfolds one operation down to its case analysis. *)
Ltac step_action :=
  unfold after, fired, exec, startBreak, adjustTime, setTime, abort, reset,
    toggle, pause, start, tick, complete, fireTick, forEach,
    WARNING_THRESHOLDS, checkThreshold, clearInterval,
    andThen, reading, update, emit, skip in *;
  simpl in *.

Ltac split_cases :=
  repeat (case_bool_decide; simpl in * ); simplify_eq/=.

(** *** What one tick does *)

(** With time left, a tick takes one second off and touches nothing but
    the set of fired thresholds. *)
Lemma tick_counts_down now t :
  0 < remainingSeconds t →
  let t' := after (tick now) t in
  remainingSeconds t' = remainingSeconds t - 1
  ∧ state t' = state t
  ∧ totalSeconds t' = totalSeconds t
  ∧ intervalId t' = intervalId t
  ∧ sessionStartTime t' = sessionStartTime t
  ∧ isBreak t' = isBreak t
  ∧ completions (fired (tick now) t) = [].
Proof.
  intros Hpos. step_action.
  rewrite bool_decide_false by lia. simpl.
  split_cases; repeat split; try done; try lia.
Qed.

(** With no time left, a tick is [complete]. *)
Lemma tick_completes now t :
  remainingSeconds t ≤ 0 →
  tick now t = complete now t.
Proof.
  intros Hz. unfold tick, reading. by rewrite bool_decide_true by done.
Qed.

Lemma complete_effect now t :
  complete now t =
    (mkTimer idle (totalSeconds t) (remainingSeconds t) false
             (sessionStartTime t) false (triggeredWarnings t),
     [OnComplete {| duration := totalSeconds t;
                    startTime := sessionStartTime t;
                    endTime := now;
                    completed := true;
                    wasBreak := isBreak t |};
      OnStateChange idle None]).
Proof. reflexivity. Qed.

(** [n] ticks with at least [n] seconds left: a pure countdown. *)
Lemma ticks_count_down nows : ∀ t,
  Z.of_nat (length nows) ≤ remainingSeconds t →
  let t' := after (ticks nows) t in
  remainingSeconds t' = remainingSeconds t - Z.of_nat (length nows)
  ∧ state t' = state t
  ∧ totalSeconds t' = totalSeconds t
  ∧ intervalId t' = intervalId t
  ∧ sessionStartTime t' = sessionStartTime t
  ∧ isBreak t' = isBreak t
  ∧ completions (fired (ticks nows) t) = [].
Proof.
  induction nows as [|now nows IH]; intros t Hlen.
  - unfold ticks, after, fired. rewrite forEach_nil. simpl in *.
    repeat split; try done; lia.
  - simpl length in *. unfold ticks in *. rewrite forEach_cons.
    rewrite after_andThen, fired_andThen, completions_app.
    destruct (tick_counts_down now t) as (Hr & Hs & Ht & Hi & Hst & Hb & Hc);
      [lia|].
    destruct (IH (after (tick now) t)) as (Hr' & Hs' & Ht' & Hi' & Hst' & Hb' & Hc');
      [lia|].
    rewrite Hc, Hc'. repeat split; try congruence. lia.
Qed.

Lemma start_from_idle now t :
  state t = idle →
  start now t =
    (mkTimer running (totalSeconds t) (remainingSeconds t) true
             (Some now) (isBreak t) ∅,
     [OnStateChange running (Some (isBreak t))]).
Proof. intros Hs. unfold start, reading. rewrite Hs. reflexivity. Qed.

Lemma after_start_idle now t :
  state t = idle →
  after (start now) t =
    mkTimer running (totalSeconds t) (remainingSeconds t) true
            (Some now) (isBreak t) ∅.
Proof. intros Hs. unfold after. by rewrite start_from_idle. Qed.

Lemma fired_start_idle now t :
  state t = idle →
  fired (start now) t = [OnStateChange running (Some (isBreak t))].
Proof. intros Hs. unfold fired. by rewrite start_from_idle. Qed.

Lemma after_tick_completes now t :
  remainingSeconds t ≤ 0 →
  after (tick now) t =
    mkTimer idle (totalSeconds t) (remainingSeconds t) false
            (sessionStartTime t) false (triggeredWarnings t).
Proof. intros Hz. unfold after. by rewrite tick_completes, complete_effect. Qed.

Lemma fired_tick_completes now t :
  remainingSeconds t ≤ 0 →
  fired (tick now) t =
    [OnComplete {| duration := totalSeconds t;
                   startTime := sessionStartTime t;
                   endTime := now;
                   completed := true;
                   wasBreak := isBreak t |};
     OnStateChange idle None].
Proof. intros Hz. unfold fired. by rewrite tick_completes, complete_effect. Qed.

Lemma after_forEach_one {A} (f : A → action) x t :
  after (forEach f [x]) t = after (f x) t.
Proof. unfold forEach, after. simpl. unfold andThen, skip. by destruct (f x t). Qed.

Lemma fired_forEach_one {A} (f : A → action) x t :
  fired (forEach f [x]) t = fired (f x) t.
Proof.
  unfold forEach, fired. simpl. unfold andThen, skip.
  destruct (f x t). simpl. apply app_nil_r.
Qed.

Lemma length_everySecond t0 n : length (everySecond t0 n) = n.
Proof. revert t0. induction n as [|n IH]; intros t0; simpl; [done|]. by rewrite IH. Qed.

(** *** Natural completion *)

(** C1, as stated in the specification, fails: from the initial timer
    (Idle, 14400 seconds), [start()] and 14400 ticks bring the countdown
    to zero but fire no completion event, and the timer is still Running.
    [tick] tests [remainingSeconds <= 0] before it decrements, so the
    tick that reaches zero does not complete. *)
Lemma full_session_14400_ticks_not_complete :
  let a := start 0 >>> ticks (everySecond 0 (Z.to_nat 14400)) in
  state initial = idle ∧ totalSeconds initial = 14400
  ∧ Z.of_nat (length (everySecond 0 (Z.to_nat 14400))) = 14400
  ∧ ¬ (∃ p, completions (fired a initial) = [p]
            ∧ completed p = true ∧ duration p = 14400
            ∧ state (after a initial) = idle).
Proof.
  intros a. split; [done|]. split; [done|].
  split; [by rewrite length_everySecond|].
  intros (p & _ & _ & _ & Hidle). revert Hidle.
  unfold a. rewrite after_andThen, after_start_idle by done.
  match goal with |- context [after (ticks ?l) ?t] =>
    destruct (ticks_count_down l t) as (_ & Hs & _) end.
  { rewrite length_everySecond. simpl remainingSeconds. lia. }
  rewrite Hs. simpl. discriminate.
Qed.

(** C1 (amended): starting from Idle with [totalSeconds = 14400] and the
    full time remaining, [start()] followed by 14400 ticks fires no
    completion event and leaves the timer Running with
    [remainingSeconds = 0]; one more tick, the 14401st, fires exactly one
    completion event, with [completed = true] and [duration = 14400], and
    leaves the timer Idle. *)
Theorem full_session_completes_on_tick_14401 t now0 nows last :
  state t = idle →
  totalSeconds t = 14400 →
  remainingSeconds t = 14400 →
  Z.of_nat (length nows) = 14400 →
  let a := start now0 >>> ticks nows in
  let b := start now0 >>> ticks (nows ++ [last]) in
  completions (fired a t) = []
  ∧ state (after a t) = running
  ∧ remainingSeconds (after a t) = 0
  ∧ (∃ p, completions (fired b t) = [p]
          ∧ completed p = true ∧ duration p = 14400)
  ∧ state (after b t) = idle.
Proof.
  intros Hidle Htot Hrem Hlen a b.
  pose proof (after_start_idle now0 t Hidle) as Hst.
  pose proof (fired_start_idle now0 t Hidle) as Hfs.
  rewrite Htot, Hrem in Hst.
  set (t1 := mkTimer running 14400 14400 true (Some now0) (isBreak t) ∅) in *.
  destruct (ticks_count_down nows t1) as (Hr & Hs & Ht & Hi & Hss & Hb & Hc).
  { simpl. lia. }
  simpl in Hr, Hs, Ht, Hss, Hb.
  assert (Hz : remainingSeconds (after (ticks nows) t1) ≤ 0) by lia.
  unfold a, b, ticks.
  rewrite !fired_andThen, !after_andThen, fired_forEach_app, after_forEach_app.
  rewrite after_forEach_one, fired_forEach_one.
  rewrite Hst, Hfs. fold (ticks nows).
  rewrite !completions_app, Hc.
  rewrite (fired_tick_completes last _ Hz), (after_tick_completes last _ Hz).
  simpl. repeat split; try done; try lia.
  eexists. split; [reflexivity|]. simpl. by rewrite Ht.
Qed.

Lemma full_session_completes_on_tick_14401_witness :
  let t := initial in
  let nows := everySecond 0 (Z.to_nat 14400) in
  let a := start 0 >>> ticks nows in
  let b := start 0 >>> ticks (nows ++ [14401000]) in
  completions (fired a t) = []
  ∧ state (after a t) = running
  ∧ remainingSeconds (after a t) = 0
  ∧ (∃ p, completions (fired b t) = [p]
          ∧ completed p = true ∧ duration p = 14400)
  ∧ state (after b t) = idle.
Proof.
  apply (full_session_completes_on_tick_14401 initial 0
           (everySecond 0 (Z.to_nat 14400)) 14401000).
  - reflexivity.
  - reflexivity.
  - reflexivity.
  - vm_compute. reflexivity.
Defined.

(** *** After a natural completion *)

Lemma abort_completions now t :
  completions (fired (abort now) t) =
    if bool_decide (totalSeconds t - remainingSeconds t > 60)
    then [ {| duration := totalSeconds t - remainingSeconds t;
              startTime := sessionStartTime t;
              endTime := now;
              completed := false;
              wasBreak := false |} ]
    else [].
Proof. step_action. by case_bool_decide. Qed.

(** C2, as stated, fails when [totalSeconds = 60], the least configurable
    time: after [setTime(60)], [start()] and 61 ticks the session has
    completed naturally and [remainingSeconds] is still 0, but [abort()]
    then computes [duration = 60], which is not [> 60], and fires no
    completion event. *)
Lemma abort_after_completion_silent_at_60 :
  let t := after (setTime 60 >>> start 0 >>> ticks (everySecond 0 60)) initial in
  let t' := after (tick 61000) t in
  state t = running ∧ remainingSeconds t = 0
  ∧ state t' = idle ∧ totalSeconds t' = 60
  ∧ ¬ (∃ p, p ∈ completions (fired (abort 62000) t')
            ∧ completed p = false ∧ duration p = totalSeconds t').
Proof.
  vm_compute. repeat split; try done.
  intros (p & Hin & _). by apply elem_of_nil in Hin.
Qed.

(** C2 (amended): after a natural completion (a tick taken while Running
    with [remainingSeconds = 0]) the timer is Idle with
    [remainingSeconds = 0] and [totalSeconds] unchanged; with no
    intervening [reset()] or [setTime()], a following [start()] fires a
    second completion event ([completed = true],
    [duration = totalSeconds]) on its first tick, and a following
    [abort()] fires a completion event with [completed = false] and
    [duration = totalSeconds] provided [totalSeconds > 60]; for
    [totalSeconds <= 60] that [abort()] fires no completion event. *)
Theorem after_completion_remaining_stays_zero t now now1 now2 :
  state t = running →
  remainingSeconds t = 0 →
  let t' := after (tick now) t in
  state t' = idle
  ∧ remainingSeconds t' = 0
  ∧ totalSeconds t' = totalSeconds t
  ∧ (∃ p, completions (fired (start now1 >>> tick now2) t') = [p]
          ∧ completed p = true ∧ duration p = totalSeconds t)
  ∧ (60 < totalSeconds t →
     ∃ p, completions (fired (abort now1) t') = [p]
          ∧ completed p = false ∧ duration p = totalSeconds t)
  ∧ (totalSeconds t ≤ 60 → completions (fired (abort now1) t') = []).
Proof.
  intros Hrun Hzero t'.
  assert (Ht' : t' = mkTimer idle (totalSeconds t) 0 false
                             (sessionStartTime t) false (triggeredWarnings t)).
  { unfold t'. rewrite after_tick_completes by lia. by rewrite Hzero. }
  rewrite Ht'. cbn [state remainingSeconds totalSeconds]. repeat split.
  - rewrite fired_andThen, completions_app.
    rewrite fired_start_idle, after_start_idle by done.
    rewrite fired_tick_completes by (simpl; lia). simpl. by eexists.
  - intros Hbig. rewrite abort_completions. simpl.
    rewrite bool_decide_true by lia. eexists. split; [done|].
    simpl. split; [done|lia].
  - intros Hsmall. rewrite abort_completions. simpl.
    by rewrite bool_decide_false by lia.
Qed.

Lemma after_completion_remaining_stays_zero_witness :
  let t := after (start 0 >>> ticks (everySecond 0 (Z.to_nat 14400))) initial in
  let t' := after (tick 14401000) t in
  state t' = idle
  ∧ remainingSeconds t' = 0
  ∧ totalSeconds t' = totalSeconds t
  ∧ (∃ p, completions (fired (start 14402000 >>> tick 14403000) t') = [p]
          ∧ completed p = true ∧ duration p = totalSeconds t)
  ∧ (60 < totalSeconds t →
     ∃ p, completions (fired (abort 14402000) t') = [p]
          ∧ completed p = false ∧ duration p = totalSeconds t)
  ∧ (totalSeconds t ≤ 60 → completions (fired (abort 14402000) t') = []).
Proof.
  apply (after_completion_remaining_stays_zero
           (after (start 0 >>> ticks (everySecond 0 (Z.to_nat 14400))) initial)
           14401000 14402000 14403000).
  - vm_compute. reflexivity.
  - vm_compute. reflexivity.
Defined.

(** *** abort *)

(** C7: [abort()] fires a completion event exactly when the elapsed time
    [totalSeconds - remainingSeconds] is strictly greater than 60, and
    then exactly one, with [completed = false] and the elapsed time as
    [duration].  Aborting 30 seconds into a session fires none; aborting
    61 seconds into it fires one, with [duration = 61]. *)
Theorem abort_logs_iff_elapsed_above_60 :
  (∀ now t,
     (completions (fired (abort now) t) ≠ []
      ↔ totalSeconds t - remainingSeconds t > 60)
     ∧ completions (fired (abort now) t) =
         if bool_decide (totalSeconds t - remainingSeconds t > 60)
         then [ {| duration := totalSeconds t - remainingSeconds t;
                   startTime := sessionStartTime t;
                   endTime := now;
                   completed := false;
                   wasBreak := false |} ]
         else [])
  ∧ (let t30 := after (start 0 >>> ticks (everySecond 0 30)) initial in
     totalSeconds t30 - remainingSeconds t30 = 30
     ∧ completions (fired (abort 30500) t30) = [])
  ∧ (let t61 := after (start 0 >>> ticks (everySecond 0 61)) initial in
     totalSeconds t61 - remainingSeconds t61 = 61
     ∧ completions (fired (abort 61500) t61) =
         [ {| duration := 61; startTime := Some 0; endTime := 61500;
              completed := false; wasBreak := false |} ]).
Proof.
  split; [|split].
  - intros now t. split; [|apply abort_completions].
    rewrite abort_completions. case_bool_decide; split; try done.
  - vm_compute. done.
  - vm_compute. done.
Qed.

(** *** Order of the events of one tick *)

Lemma tick_fired_shape now t :
  (∃ ws, fired (tick now) t =
           (OnWarning <$> ws)
           ++ [OnTick (formatTime (remainingSeconds t - 1))
                      (remainingSeconds t - 1)])
  ∨ (∃ p, fired (tick now) t = [OnComplete p; OnStateChange idle None]).
Proof.
  destruct (decide (remainingSeconds t ≤ 0)) as [Hz|Hpos].
  - right. rewrite fired_tick_completes by done. by eexists.
  - left. step_action. rewrite bool_decide_false by done. simpl.
    split_cases;
      first [ by exists [] | by exists [300] | by exists [60]
            | by exists [300; 60] ].
Qed.

Lemma precedes_warnings_tick ws f r :
  precedes isWarning isTick ((OnWarning <$> ws) ++ [OnTick f r]).
Proof.
  intros i j e1 e2 Hi Hj H1 H2.
  assert (Hii : (i < length ws)%nat).
  { destruct (decide (i < length (OnWarning <$> ws))%nat) as [Hlt|Hge].
    - by rewrite length_fmap in Hlt.
    - rewrite lookup_app_r in Hi by lia.
      destruct (i - length (OnWarning <$> ws))%nat; simplify_eq/=. }
  destruct (decide (j < length (OnWarning <$> ws))%nat) as [Hlt|Hge].
  - rewrite lookup_app_l in Hj by done.
    rewrite list_lookup_fmap in Hj.
    destruct (ws !! j); simplify_eq/=.
  - rewrite length_fmap in Hge. lia.
Qed.

Lemma precedes_complete_stateChange p st brk :
  precedes isComplete isStateChange [OnComplete p; OnStateChange st brk].
Proof.
  intros [|[|i]] [|[|j]] e1 e2 Hi Hj H1 H2; simplify_eq/=; lia.
Qed.

Lemma precedes_vacuous_l (p q : event → bool) es :
  (∀ e, e ∈ es → p e = false) → precedes p q es.
Proof.
  intros Hno i j e1 e2 Hi _ H1 _.
  apply list_elem_of_lookup_2 in Hi. apply Hno in Hi. congruence.
Qed.

(** C9: in the events fired by one [tick], every warning event comes
    before the tick event; and on natural completion the completion
    event comes before the state-change event.  The events of a tick are
    either the warnings followed by one tick event, or the completion
    event followed by the state change to Idle. *)
Theorem tick_fires_in_order now t :
  let es := fired (tick now) t in
  precedes isWarning isTick es
  ∧ precedes isComplete isStateChange es
  ∧ ((∃ ws, es = (OnWarning <$> ws)
                 ++ [OnTick (formatTime (remainingSeconds t - 1))
                            (remainingSeconds t - 1)])
     ∨ (∃ p, es = [OnComplete p; OnStateChange idle None]))
  ∧ (∃ p, fired (complete now) t = [OnComplete p; OnStateChange idle None])
  ∧ precedes isComplete isStateChange (fired (complete now) t).
Proof.
  intros es. pose proof (tick_fired_shape now t) as Hshape. fold es in Hshape.
  split; [|split; [|split; [done|split]]].
  - destruct Hshape as [[ws ->]|[p ->]].
    + apply precedes_warnings_tick.
    + apply precedes_vacuous_l. intros e He.
      apply elem_of_cons in He as [->|He]; [done|].
      by apply list_elem_of_singleton in He as ->.
  - destruct Hshape as [[ws ->]|[p ->]].
    + apply precedes_vacuous_l. intros e He.
      apply elem_of_app in He as [He|He].
      * apply list_elem_of_fmap in He as (w & -> & _). done.
      * by apply list_elem_of_singleton in He as ->.
    + apply precedes_complete_stateChange.
  - unfold fired. rewrite complete_effect. by eexists.
  - unfold fired. rewrite complete_effect. apply precedes_complete_stateChange.
Qed.

(** *** setTime *)

Lemma clampTime_range secs : 60 ≤ clampTime secs ≤ 43200.
Proof. unfold clampTime. lia. Qed.

Lemma setTime_not_running secs t :
  state t ≠ running →
  setTime secs t =
    (mkTimer (state t) (clampTime secs) (clampTime secs) (intervalId t)
             (sessionStartTime t) (isBreak t) (triggeredWarnings t),
     [OnTick (formatTime (clampTime secs)) (clampTime secs)]).
Proof.
  intros Hs. unfold setTime, reading. by rewrite bool_decide_false by done.
Qed.

(** C10: for every integer [secs], [setTime(secs)] called while the timer
    is not Running leaves [60 <= totalSeconds <= 43200] and
    [remainingSeconds = totalSeconds]; [setTime(10)] gives 60 and
    [setTime(999999)] gives 43200. *)
Theorem setTime_clamps secs t :
  state t ≠ running →
  let t' := after (setTime secs) t in
  60 ≤ totalSeconds t' ≤ 43200
  ∧ remainingSeconds t' = totalSeconds t'
  ∧ totalSeconds (after (setTime 10) t) = 60
  ∧ totalSeconds (after (setTime 999999) t) = 43200.
Proof.
  intros Hs t'. unfold t', after. rewrite !setTime_not_running by done.
  cbn [fst totalSeconds remainingSeconds].
  split; [apply clampTime_range|]. done.
Qed.

Lemma setTime_clamps_witness :
  let t' := after (setTime 7200) initial in
  60 ≤ totalSeconds t' ≤ 43200
  ∧ remainingSeconds t' = totalSeconds t'
  ∧ totalSeconds (after (setTime 10) initial) = 60
  ∧ totalSeconds (after (setTime 999999) initial) = 43200.
Proof.
  apply (setTime_clamps 7200 initial). vm_compute. discriminate.
Defined.

(** *** Invariants of the reachable states *)

Ltac by_cases_on c t :=
  destruct c; destruct t as [st tot rem held sst brk tw];
  step_action; split_cases.

Lemma reachable_by_weaken (ok ok' : call → Prop) t :
  (∀ c, ok c → ok' c) → reachable_by ok t → reachable_by ok' t.
Proof.
  intros Hsub Hr. induction Hr as [|t c Hr IH Hc]; [constructor|].
  constructor; auto.
Qed.

Lemma reachable_run (ok : call → Prop) cs : ∀ t,
  reachable_by ok t → Forall ok cs → reachable_by ok (after (run cs) t).
Proof.
  induction cs as [|c cs IH]; intros t Hr Hall.
  - done.
  - unfold run in *. rewrite forEach_cons, after_andThen.
    inversion Hall; subst. apply IH; [|done]. by constructor.
Qed.

(** The interval handle is held exactly while Running, so the interval
    calls [tick] only then. *)
Lemma exec_interval_iff_running c t :
  (intervalId t = true ↔ state t = running) →
  intervalId (after (exec c) t) = true ↔ state (after (exec c) t) = running.
Proof.
  by_cases_on c t; intros [Hfw Hbw]; split; intros Hgoal; try done;
    try (by apply Hfw); try (by apply Hbw);
    destruct held; simpl in *; try done;
    try (by apply Hfw); try (by apply Hbw);
    repeat (case_bool_decide; simpl in * ); try done;
    try (by apply Hfw); try (by apply Hbw).
Qed.

Lemma interval_iff_running t :
  reachable t → intervalId t = true ↔ state t = running.
Proof.
  induction 1 as [|t c Hr IH _]; [done|]. by apply exec_interval_iff_running.
Qed.

Lemma exec_remaining_bounds c t :
  breakAtLeast 0 c →
  0 ≤ remainingSeconds t ≤ totalSeconds t →
  0 ≤ remainingSeconds (after (exec c) t) ≤ totalSeconds (after (exec c) t).
Proof.
  unfold breakAtLeast. by_cases_on c t; intros Hc Hb;
    try (unfold clampTime); try lia;
    destruct held; simpl; try lia;
    repeat (case_bool_decide; simpl); lia.
Qed.

Lemma exec_total_bounds c t :
  breakWithin 60 43200 c →
  60 ≤ totalSeconds t ≤ 43200 →
  60 ≤ totalSeconds (after (exec c) t) ≤ 43200.
Proof.
  unfold breakWithin. by_cases_on c t; intros Hc Hb;
    try (unfold clampTime); try lia;
    destruct held; simpl; try lia;
    repeat (case_bool_decide; simpl); lia.
Qed.

Lemma exec_total_exact c t :
  breakWithin 0 MAX_EXACT c →
  totalSeconds t ≤ MAX_EXACT →
  totalSeconds (after (exec c) t) ≤ MAX_EXACT.
Proof.
  unfold breakWithin, MAX_EXACT. by_cases_on c t; intros Hc Hb;
    try (unfold clampTime); try lia;
    destruct held; simpl; try lia;
    repeat (case_bool_decide; simpl); lia.
Qed.

Lemma total_exact_reachable t :
  reachable_by (breakWithin 0 MAX_EXACT) t → totalSeconds t ≤ MAX_EXACT.
Proof.
  induction 1 as [|t c Hr IH Hc]; [by vm_compute|].
  by apply exec_total_exact.
Qed.

Lemma remaining_bounds_reachable t :
  reachable_by (breakAtLeast 0) t →
  0 ≤ remainingSeconds t ≤ totalSeconds t.
Proof.
  induction 1 as [|t c Hr IH Hc]; [done|]. by apply exec_remaining_bounds.
Qed.

(** C3, as stated, fails on two counts.  A tick taken while Running with
    [remainingSeconds = 0] (the state reached after [setTime(60)],
    [start()] and 60 interval firings) completes the session and leaves
    [remainingSeconds] at 0 instead of decreasing it.  And [startBreak]
    stores its argument unchecked, so [startBreak(-5)] reaches a state
    with a negative [remainingSeconds]. *)
Lemma remaining_invariant_fails :
  (let t := after (run (SetTime 60 :: Start 0
                        :: (IntervalFires <$> everySecond 0 60))) initial in
   reachable t ∧ state t = running ∧ intervalId t = true
   ∧ remainingSeconds (after (tick 61000) t) ≠ remainingSeconds t - 1)
  ∧ (let t := after (exec (StartBreak 0 0 (-5))) initial in
     reachable t ∧ ¬ (0 ≤ remainingSeconds t ≤ totalSeconds t)).
Proof.
  split.
  - split; [|by vm_compute].
    apply reachable_run; [constructor|]. by apply Forall_forall.
  - split; [by repeat constructor|]. vm_compute. intros [Hle _]. by apply Hle.
Qed.

(** C3 (amended): in every state reachable by calls whose [startBreak]
    arguments lie between 0 and 2^53 = 9007199254740992 (the range in
    which a JavaScript number counts integers exactly),
    [0 <= remainingSeconds <= totalSeconds] and [totalSeconds <= 2^53];
    a tick taken with [remainingSeconds > 0] decreases it by exactly 1, a
    tick taken with [remainingSeconds = 0] leaves it at 0 (the session
    completes and the timer is Idle), and [remainingSeconds] is never
    negative, before or after a tick. *)
Theorem remaining_within_bounds t now :
  reachable_by (breakWithin 0 MAX_EXACT) t →
  0 ≤ remainingSeconds t ≤ totalSeconds t
  ∧ totalSeconds t ≤ MAX_EXACT
  ∧ (0 < remainingSeconds t →
     remainingSeconds (after (tick now) t) = remainingSeconds t - 1
     ∧ state (after (tick now) t) = state t)
  ∧ (remainingSeconds t = 0 →
     remainingSeconds (after (tick now) t) = 0
     ∧ state (after (tick now) t) = idle)
  ∧ 0 ≤ remainingSeconds (after (tick now) t) ≤ totalSeconds (after (tick now) t).
Proof.
  intros Hr.
  assert (Hb : 0 ≤ remainingSeconds t ≤ totalSeconds t).
  { apply remaining_bounds_reachable.
    eapply reachable_by_weaken; [|exact Hr].
    intros [] Hc; simpl in *; try done. lia. }
  split; [done|]. split; [by apply total_exact_reachable|]. split; [|split].
  - intros Hpos. by destruct (tick_counts_down now t Hpos) as (? & ? & _).
  - intros Hz. rewrite after_tick_completes by lia. done.
  - destruct (decide (0 < remainingSeconds t)) as [Hpos|Hz].
    + destruct (tick_counts_down now t Hpos) as (Hr1 & _ & Ht1 & _). lia.
    + rewrite after_tick_completes by lia. simpl. lia.
Qed.

Lemma remaining_within_bounds_witness :
  let t := after (exec (IntervalFires 1000))
             (after (exec (Start 0))
                (after (exec (StartBreak 0 0 300)) initial)) in
  0 ≤ remainingSeconds t ≤ totalSeconds t
  ∧ totalSeconds t ≤ MAX_EXACT
  ∧ (0 < remainingSeconds t →
     remainingSeconds (after (tick 2000) t) = remainingSeconds t - 1
     ∧ state (after (tick 2000) t) = state t)
  ∧ (remainingSeconds t = 0 →
     remainingSeconds (after (tick 2000) t) = 0
     ∧ state (after (tick 2000) t) = idle)
  ∧ 0 ≤ remainingSeconds (after (tick 2000) t)
      ≤ totalSeconds (after (tick 2000) t).
Proof.
  apply (remaining_within_bounds _ 2000).
  apply reach_call; [apply reach_call; [apply reach_call|]|].
  - apply reach_initial.
  - vm_compute. split; discriminate.
  - simpl. exact I.
  - simpl. exact I.
Defined.

(** *** totalSeconds *)

Lemma total_bounds_reachable t :
  reachable_by (breakWithin 60 43200) t →
  60 ≤ totalSeconds t ≤ 43200.
Proof.
  induction 1 as [|t c Hr IH Hc]; [by vm_compute|].
  by apply exec_total_bounds.
Qed.





(** *** Warnings *)

Lemma fresh_quiet (a : action) t :
  triggeredWarnings (after a t) = triggeredWarnings t →
  warnings (fired a t) = [] →
  fresh a t.
Proof.
  intros Htw Hw. unfold fresh. rewrite Htw, Hw.
  split; [done|]. split; [constructor|].
  intros w Hin. by apply elem_of_nil in Hin.
Qed.

Lemma fresh_andThen (a b : action) t :
  fresh a t → fresh b (after a t) → fresh (a >>> b) t.
Proof.
  intros (Hsub & Hnd & Hfr) (Hsub' & Hnd' & Hfr').
  unfold fresh. rewrite after_andThen, fired_andThen, warnings_app.
  split; [by etrans|]. split.
  - apply NoDup_app. split; [done|]. split; [|done].
    intros w Hw Hw'. apply Hfr in Hw as [_ Hin].
    apply Hfr' in Hw' as [Hnot _]. by apply Hnot.
  - intros w Hw. apply elem_of_app in Hw as [Hw|Hw].
    + apply Hfr in Hw as [Hnot Hin]. split; [done|]. by apply Hsub'.
    + apply Hfr' in Hw as [Hnot Hin]. split; [|done].
      intros Hold. apply Hnot. by apply Hsub.
Qed.

Lemma fresh_checkThreshold th t : fresh (checkThreshold th) t.
Proof.
  destruct (bool_decide (remainingSeconds t = th)
            && negb (bool_decide (th ∈ triggeredWarnings t))) eqn:Hfire.
  - assert (Hrun : checkThreshold th t =
              (set_triggeredWarnings ({[th]} ∪ triggeredWarnings t) t,
               [OnWarning th])).
    { unfold checkThreshold, reading, id. by rewrite Hfire. }
    apply andb_prop in Hfire as [_ Hnew].
    apply negb_true_iff, bool_decide_eq_false in Hnew.
    unfold fresh, after, fired. rewrite Hrun. simpl.
    split; [apply union_subseteq_r|]. split.
    + apply NoDup_singleton.
    + intros w Hw. apply list_elem_of_singleton in Hw as ->.
      split; [done|]. apply elem_of_union_l. by apply elem_of_singleton.
  - assert (Hrun : checkThreshold th t = (t, [])).
    { unfold checkThreshold, reading, id. by rewrite Hfire. }
    apply fresh_quiet; unfold after, fired; by rewrite Hrun.
Qed.

Lemma fresh_forEach {A} (f : A → action) l :
  (∀ x t, fresh (f x) t) → ∀ t, fresh (forEach f l) t.
Proof.
  intros Hf. induction l as [|x l IH]; intros t.
  - by apply fresh_quiet.
  - rewrite forEach_cons. apply fresh_andThen; [apply Hf|apply IH].
Qed.

Lemma fresh_ext (a b : action) t : a t = b t → fresh b t → fresh a t.
Proof. unfold fresh, after, fired. by intros ->. Qed.

Lemma tick_with_time_left now t :
  ¬ remainingSeconds t ≤ 0 →
  tick now t =
    (update (set_remainingSeconds (remainingSeconds t - 1)) >>>
     forEach checkThreshold WARNING_THRESHOLDS >>>
     fireTick) t.
Proof.
  intros Hpos. unfold tick at 1, reading at 1.
  by rewrite bool_decide_false by done.
Qed.

Lemma fresh_tick now t : fresh (tick now) t.
Proof.
  destruct (decide (remainingSeconds t ≤ 0)) as [Hz|Hpos].
  - apply (fresh_ext _ (complete now)); [by apply tick_completes|].
    apply fresh_quiet; unfold after, fired; by rewrite complete_effect.
  - eapply fresh_ext; [by apply tick_with_time_left|].
    apply fresh_andThen; [by apply fresh_quiet|].
    apply fresh_andThen; [|by apply fresh_quiet].
    apply fresh_forEach. intros th t'. apply fresh_checkThreshold.
Qed.

(** A call that stays within the session is [fresh]. *)
Lemma exec_warnings_fresh c t :
  sameSession c t = true → fresh (exec c) t.
Proof.
  destruct c; unfold sameSession; intros Hsame; try done; cbn [exec].
  - (* start, not from Idle *)
    apply bool_decide_eq_true in Hsame.
    apply fresh_quiet; unfold start, reading, after, fired; simpl;
      repeat (case_bool_decide; try done).
  - (* pause *)
    apply fresh_quiet; unfold pause, reading, after, fired; simpl;
      by case_bool_decide.
  - (* toggle, not from Idle *)
    apply bool_decide_eq_true in Hsame.
    apply fresh_quiet;
      unfold toggle, pause, start, reading, after, fired; simpl;
      repeat (case_bool_decide; try done).
  - (* setTime *)
    apply fresh_quiet; unfold setTime, reading, after, fired; simpl;
      by case_bool_decide.
  - (* adjustTime *)
    apply fresh_quiet; unfold adjustTime, setTime, reading, after, fired;
      simpl; by repeat case_bool_decide.
  - (* the interval *)
    destruct (intervalId t) eqn:Hheld.
    + apply (fresh_ext _ (tick now)); [|apply fresh_tick].
      unfold reading. by rewrite Hheld.
    + apply fresh_quiet; unfold after, fired, reading; by rewrite Hheld.
Qed.

Lemma run_warnings_fresh cs : ∀ t,
  withinSession cs t = true →
  NoDup (warnings (fired (run cs) t))
  ∧ ∀ w, w ∈ warnings (fired (run cs) t) → w ∉ triggeredWarnings t.
Proof.
  induction cs as [|c cs IH]; intros t Hs.
  - split; [constructor|]. intros w Hw. by apply elem_of_nil in Hw.
  - simpl in Hs. apply andb_prop in Hs as [Hc Hcs].
    destruct (exec_warnings_fresh c t Hc) as (Hsub & Hnd & Hfresh).
    destruct (IH _ Hcs) as (Hnd' & Hfresh').
    unfold run in *. rewrite forEach_cons, fired_andThen, warnings_app.
    split.
    + apply NoDup_app. split; [done|]. split; [|done].
      intros w Hw Hw'. apply Hfresh in Hw as [_ Hin].
      by apply Hfresh' in Hw'.
    + intros w Hw. apply elem_of_app in Hw as [Hw|Hw].
      * by apply Hfresh in Hw as [? _].
      * apply Hfresh' in Hw. intros Hold. apply Hw. by apply Hsub.
Qed.

(** C8: within one session each warning threshold fires at most once,
    whatever calls are made that stay within the session.  With
    [totalSeconds = 400], ticking down to [remainingSeconds = 300] fires
    exactly one warning(300), and continuing down to
    [remainingSeconds = 60] fires exactly one warning(60); [reset()]
    followed by a fresh [start()] leaves the set of fired thresholds
    empty, and both thresholds fire again. *)
Theorem warnings_once_per_session cs t now :
  withinSession cs t = true →
  NoDup (warnings (fired (run cs) t))
  ∧ triggeredWarnings (after (reset >>> start now) t) = ∅
  ∧ (let to300 := setTime 400 >>> start 0 >>> ticks (everySecond 0 100) in
     let to60 := to300 >>> ticks (everySecond 100000 240) in
     let again := to60 >>> reset >>> start 400000 in
     remainingSeconds (after to300 initial) = 300
     ∧ warnings (fired to300 initial) = [300]
     ∧ remainingSeconds (after to60 initial) = 60
     ∧ warnings (fired to60 initial) = [300; 60]
     ∧ triggeredWarnings (after to60 initial) = {[300; 60]}
     ∧ triggeredWarnings (after again initial) = ∅
     ∧ remainingSeconds (after again initial) = 400
     ∧ warnings (fired (ticks (everySecond 400000 340)) (after again initial))
       = [300; 60]).
Proof.
  intros Hs. split; [by apply run_warnings_fresh|].
  split; [reflexivity|].
  vm_compute. repeat split; done.
Qed.

Lemma warnings_once_per_session_witness :
  let t := after (setTime 400 >>> start 0) initial in
  let cs := (IntervalFires <$> everySecond 0 340)
            ++ [Pause; SetTime 400; Start 341000]
            ++ (IntervalFires <$> everySecond 341000 340) in
  NoDup (warnings (fired (run cs) t))
  ∧ triggeredWarnings (after (reset >>> start 700000) t) = ∅
  ∧ (let to300 := setTime 400 >>> start 0 >>> ticks (everySecond 0 100) in
     let to60 := to300 >>> ticks (everySecond 100000 240) in
     let again := to60 >>> reset >>> start 400000 in
     remainingSeconds (after to300 initial) = 300
     ∧ warnings (fired to300 initial) = [300]
     ∧ remainingSeconds (after to60 initial) = 60
     ∧ warnings (fired to60 initial) = [300; 60]
     ∧ triggeredWarnings (after to60 initial) = {[300; 60]}
     ∧ triggeredWarnings (after again initial) = ∅
     ∧ remainingSeconds (after again initial) = 400
     ∧ warnings (fired (ticks (everySecond 400000 340)) (after again initial))
       = [300; 60]).
Proof.
  apply (warnings_once_per_session
           ((IntervalFires <$> everySecond 0 340)
            ++ [Pause; SetTime 400; Start 341000]
            ++ (IntervalFires <$> everySecond 341000 340))
           (after (setTime 400 >>> start 0) initial) 700000).
  vm_compute. reflexivity.
Defined.

(* ------------------------------------------------------------------ *)
(** *** Further properties: pause, toggle, reset, abort, adjustTime *)
(* ------------------------------------------------------------------ *)

(** Pausing a Running timer and starting it again gives back the very
    same timer: the countdown, the session start stamp and the set of
    fired thresholds are all kept; only two state changes are fired. *)
Theorem pause_then_start_restores t now :
  state t = running →
  intervalId t = true →
  after (pause >>> start now) t = t
  ∧ state (after pause t) = paused
  ∧ intervalId (after pause t) = false
  ∧ fired (pause >>> start now) t =
      [OnStateChange paused None; OnStateChange running (Some (isBreak t))].
Proof.
  intros Hs Hi. destruct t as [st tot rem held sst brk tw].
  simpl in Hs, Hi. subst. by vm_compute.
Qed.

Lemma pause_then_start_restores_witness :
  let t := after (start 0 >>> ticks (everySecond 0 125)) initial in
  after (pause >>> start 130000) t = t
  ∧ state (after pause t) = paused
  ∧ intervalId (after pause t) = false
  ∧ fired (pause >>> start 130000) t =
      [OnStateChange paused None; OnStateChange running (Some (isBreak t))].
Proof.
  apply (pause_then_start_restores
           (after (start 0 >>> ticks (everySecond 0 125)) initial) 130000).
  - vm_compute. reflexivity.
  - vm_compute. reflexivity.
Defined.

Lemma toggle_twice_fixed t now1 now2 :
  (intervalId t = true ↔ state t = running) →
  state t ≠ idle →
  after (toggle now1 >>> toggle now2) t = t.
Proof.
  destruct t as [st tot rem held sst brk tw]. simpl.
  intros [Hfw Hbw] Hne. destruct st; [done| |].
  - rewrite Hbw by done. reflexivity.
  - destruct held; [by specialize (Hfw eq_refl)|]. reflexivity.
Qed.

(** In a reachable state other than Idle, [toggle()] twice is the
    identity on the timer: Running goes to Paused and back, Paused to
    Running and back.  (From Idle the first toggle begins a session.) *)
Theorem toggle_twice_restores t now1 now2 :
  reachable t →
  state t ≠ idle →
  after (toggle now1 >>> toggle now2) t = t.
Proof.
  intros Hr Hne. apply toggle_twice_fixed; [|done].
  by apply interval_iff_running.
Qed.

Lemma toggle_twice_restores_witness :
  let t := after (exec Pause) (after (exec (Start 0)) initial) in
  after (toggle 5000 >>> toggle 9000) t = t.
Proof.
  apply (toggle_twice_restores
           (after (exec Pause) (after (exec (Start 0)) initial)) 5000 9000).
  - apply reach_call; [apply reach_call; [apply reach_initial|]|]; exact I.
  - vm_compute. discriminate.
Defined.

(** [abort()] leaves the timer exactly as [reset()] does: Idle, the full
    time restored, no break flag, no fired thresholds, no interval; the
    two differ only in the completion event that [abort()] may fire.
    [reset()] never fires a completion event, and a second [reset()]
    changes nothing and fires the same events. *)
Theorem abort_leaves_timer_as_reset t now :
  after (abort now) t = after reset t
  ∧ after reset t =
      mkTimer idle (totalSeconds t) (totalSeconds t) false
              (sessionStartTime t) false ∅
  ∧ completions (fired reset t) = []
  ∧ after (reset >>> reset) t = after reset t
  ∧ fired reset (after reset t) = fired reset t
  ∧ fired reset t =
      [OnTick (formatTime (totalSeconds t)) (totalSeconds t);
       OnStateChange idle None].
Proof.
  destruct t as [st tot rem held sst brk tw].
  repeat split; try reflexivity.
  unfold after, abort, reset, reading, andThen, update, emit, clearInterval,
    fireTick, skip, id. simpl. by case_bool_decide.
Qed.

Lemma adjustTime_as_setTime delta t :
  adjustTime delta t = setTime (totalSeconds t + delta) t.
Proof.
  unfold adjustTime, setTime, reading. cbv beta.
  by repeat case_bool_decide.
Qed.

(** [adjustTime(delta)] is [setTime(totalSeconds + delta)], in every
    state, Running included (where both do nothing).  While not Running
    the new [totalSeconds] is the old one plus [delta], clamped into
    [60, 43200], and [remainingSeconds] equals it; so when the old and
    the adjusted time both lie within the bounds, adjusting by [-delta]
    afterwards gives the old time back. *)
Theorem adjustTime_clamps_and_undoes delta t :
  adjustTime delta t = setTime (totalSeconds t + delta) t
  ∧ (state t = running → adjustTime delta t = (t, []))
  ∧ (state t ≠ running →
     totalSeconds (after (adjustTime delta) t)
     = clampTime (totalSeconds t + delta)
     ∧ remainingSeconds (after (adjustTime delta) t)
       = totalSeconds (after (adjustTime delta) t)
     ∧ (60 ≤ totalSeconds t ≤ 43200 →
        60 ≤ totalSeconds t + delta ≤ 43200 →
        totalSeconds (after (adjustTime delta >>> adjustTime (- delta)) t)
        = totalSeconds t)).
Proof.
  split; [apply adjustTime_as_setTime|]. split.
  { intros Hrun. unfold adjustTime, reading. by rewrite Hrun. }
  intros Hs.
  assert (Hone : ∀ d u, state u ≠ running →
            after (adjustTime d) u =
              mkTimer (state u) (clampTime (totalSeconds u + d))
                      (clampTime (totalSeconds u + d)) (intervalId u)
                      (sessionStartTime u) (isBreak u) (triggeredWarnings u)).
  { intros d u Hu. unfold after.
    by rewrite adjustTime_as_setTime, setTime_not_running. }
  rewrite after_andThen, !Hone by (try rewrite Hone by done; done).
  cbn [totalSeconds remainingSeconds]. split; [done|]. split; [done|].
  intros Hold Hnew. unfold clampTime. lia.
Qed.

Lemma adjustTime_clamps_and_undoes_witness :
  let t := initial in
  let delta := 900 in
  adjustTime delta t = setTime (totalSeconds t + delta) t
  ∧ totalSeconds (after (adjustTime delta) t)
    = clampTime (totalSeconds t + delta)
  ∧ remainingSeconds (after (adjustTime delta) t)
    = totalSeconds (after (adjustTime delta) t)
  ∧ totalSeconds (after (adjustTime delta >>> adjustTime (- delta)) t)
    = totalSeconds t.
Proof.
  destruct (adjustTime_clamps_and_undoes 900 initial)
    as (Hsame & _ & Hidle).
  destruct Hidle as (Htot & Hrem & Hundo); [vm_compute; discriminate|].
  split; [exact Hsame|]. split; [exact Htot|]. split; [exact Hrem|].
  apply Hundo; vm_compute; split; discriminate.
Defined.

(** At the upper bound the adjustment is lost: from 43200 seconds,
    fifteen minutes up and fifteen minutes down end at 42300. *)
Example adjustTime_saturates :
  totalSeconds (after (setTime 43200 >>> adjustTime 900 >>> adjustTime (-900))
                      initial) = 42300.
Proof. reflexivity. Qed.

(* ------------------------------------------------------------------ *)
(** *** Further properties: breaks, invariants, payloads, warnings *)
(* ------------------------------------------------------------------ *)

Lemma startBreak_effect now startNow b t :
  after (startBreak now startNow b) t =
    mkTimer running b b
            (if bool_decide (state t = running) then intervalId t else true)
            (Some (if bool_decide (state t = idle) then startNow else now))
            true ∅
  ∧ completions (fired (startBreak now startNow b) t) = [].
Proof.
  destruct t as [st tot rem held sst brk tw].
  unfold after, fired, startBreak, start, reading, andThen, update, emit,
    fireTick, skip. simpl.
  destruct st; by vm_compute.
Qed.

(** A break of [breakSeconds] seconds (a count of seconds that a
    JavaScript number holds exactly, so at most 2^53), started in any
    state, runs like a session: after [breakSeconds] ticks and one more,
    exactly one completion event has been fired, with [wasBreak = true],
    [completed = true], the break length as [duration] and the start
    stamp of the break (the clock reading of [start()] when the timer
    was Idle, that of [startBreak] itself otherwise); the timer is then
    Idle and no longer flagged as a break. *)
Theorem break_completes_as_break t now startNow breakSeconds nows last :
  Z.of_nat (length nows) = breakSeconds →
  breakSeconds ≤ MAX_EXACT →
  let a := startBreak now startNow breakSeconds >>> ticks (nows ++ [last]) in
  completions (fired a t) =
    [ {| duration := breakSeconds;
         startTime := Some (if bool_decide (state t = idle)
                            then startNow else now);
         endTime := last;
         completed := true; wasBreak := true |} ]
  ∧ state (after a t) = idle
  ∧ isBreak (after a t) = false
  ∧ intervalId (after a t) = false
  ∧ totalSeconds (after a t) = breakSeconds
  ∧ remainingSeconds (after a t) = 0.
Proof.
  intros Hlen _ a.
  destruct (startBreak_effect now startNow breakSeconds t) as [Hsb Hsc].
  unfold a, ticks.
  rewrite fired_andThen, after_andThen, fired_forEach_app, after_forEach_app.
  rewrite after_forEach_one, fired_forEach_one, !completions_app, Hsc, Hsb.
  fold (ticks nows).
  match goal with |- context [after (ticks nows) ?u] => set (t1 := u) end.
  destruct (ticks_count_down nows t1) as (Hr & Hs & Ht & Hi & Hss & Hb & Hc).
  { simpl. lia. }
  cbn in Hr, Hs, Ht, Hss, Hb.
  assert (Hz : remainingSeconds (after (ticks nows) t1) ≤ 0) by lia.
  rewrite Hc, (fired_tick_completes last _ Hz), (after_tick_completes last _ Hz).
  cbn [state isBreak intervalId totalSeconds remainingSeconds app completions
       omap].
  rewrite Ht, Hss, Hb. repeat split; try done. lia.
Qed.

Lemma break_completes_as_break_witness :
  let a := startBreak 0 1 300 >>> ticks (everySecond 1 300 ++ [301001]) in
  completions (fired a initial) =
    [ {| duration := 300;
         startTime := Some (if bool_decide (state initial = idle)
                            then 1 else 0);
         endTime := 301001;
         completed := true; wasBreak := true |} ]
  ∧ state (after a initial) = idle
  ∧ isBreak (after a initial) = false
  ∧ intervalId (after a initial) = false
  ∧ totalSeconds (after a initial) = 300
  ∧ remainingSeconds (after a initial) = 0.
Proof.
  apply (break_completes_as_break initial 0 1 300 (everySecond 1 300) 301001).
  - vm_compute. reflexivity.
  - vm_compute. discriminate.
Defined.

Lemma exec_coherent c t : coherent t → coherent (after (exec c) t).
Proof.
  unfold coherent. intros (Hint & Hbrk & Hsst).
  split; [by apply exec_interval_iff_running|].
  revert Hint Hbrk Hsst.
  by_cases_on c t; intros Hint Hbrk Hsst; split; intros Hgoal; try done;
    try (by apply Hbrk); try (by apply Hsst);
    try (destruct (Hsst Hgoal) as [? ?]; done);
    destruct held; simpl in *; try done;
    try (by apply Hbrk); try (by apply Hsst);
    repeat (case_bool_decide; simpl in * ); try done;
    try (by apply Hbrk); try (by apply Hsst);
    destruct (Hsst Hgoal) as [? ?]; destruct Hint as [Hheld _];
    specialize (Hheld eq_refl); congruence.
Qed.

Lemma reachable_coherent t : reachable t → coherent t.
Proof.
  induction 1 as [|t c Hr IH _]; [|by apply exec_coherent].
  split; [done|]. split; [done|]. done.
Qed.

(** In every reachable state: the interval handle is held exactly while
    the timer is Running (so no tick arrives while Paused or Idle and no
    second interval is ever started); an Idle timer is never flagged as
    a break; and a timer that has never been started is Idle with its
    full time remaining. *)
Theorem reachable_timer_is_coherent t :
  reachable t →
  (intervalId t = true ↔ state t = running)
  ∧ (state t = idle → isBreak t = false)
  ∧ (sessionStartTime t = None →
     state t = idle ∧ remainingSeconds t = totalSeconds t)
  ∧ ∀ now, state t ≠ running → exec (IntervalFires now) t = (t, []).
Proof.
  intros Hr. destruct (reachable_coherent t Hr) as (Hint & Hbrk & Hsst).
  split; [done|]. split; [done|]. split; [done|].
  intros now Hne. unfold exec, reading.
  destruct (intervalId t) eqn:Hheld; [|done].
  by destruct Hne; apply Hint.
Qed.

Lemma reachable_timer_is_coherent_witness :
  let t := after (exec Pause)
             (after (exec (IntervalFires 1000))
                (after (exec (StartBreak 0 0 300)) initial)) in
  (intervalId t = true ↔ state t = running)
  ∧ (state t = idle → isBreak t = false)
  ∧ (sessionStartTime t = None →
     state t = idle ∧ remainingSeconds t = totalSeconds t)
  ∧ ∀ now, state t ≠ running → exec (IntervalFires now) t = (t, []).
Proof.
  apply (reachable_timer_is_coherent
           (after (exec Pause)
              (after (exec (IntervalFires 1000))
                 (after (exec (StartBreak 0 0 300)) initial)))).
  apply reach_call; [apply reach_call; [apply reach_call|]|];
    [apply reach_initial | exact I | exact I | exact I].
Defined.

(** The completion events of one call. *)
Lemma exec_completions c t :
  completions (fired (exec c) t) =
    match c with
    | Abort now =>
        if bool_decide (totalSeconds t - remainingSeconds t > 60)
        then [ {| duration := totalSeconds t - remainingSeconds t;
                  startTime := sessionStartTime t;
                  endTime := now; completed := false; wasBreak := false |} ]
        else []
    | IntervalFires now =>
        if intervalId t && bool_decide (remainingSeconds t ≤ 0)
        then [ {| duration := totalSeconds t;
                  startTime := sessionStartTime t;
                  endTime := now; completed := true; wasBreak := isBreak t |} ]
        else []
    | _ => []
    end.
Proof.
  by_cases_on c t; try done; destruct held; simpl; try done;
    repeat (case_bool_decide; simpl); done.
Qed.

(** Every completion event fired from a state reachable with
    non-negative break lengths is the only one of its call and carries
    the session's start stamp, which is never [null].  A completed
    session comes from a tick at zero and carries the configured
    [totalSeconds] as duration and the break flag; an aborted one comes
    from [abort()] and carries the elapsed time, which exceeds 60 and
    not the configured time, and [wasBreak = false] whatever the break
    flag was. *)
Theorem completion_payload_well_formed t c p :
  reachable_by (breakAtLeast 0) t →
  p ∈ completions (fired (exec c) t) →
  completions (fired (exec c) t) = [p]
  ∧ startTime p = sessionStartTime t
  ∧ sessionStartTime t ≠ None
  ∧ 0 ≤ duration p ≤ totalSeconds t
  ∧ (completed p = true →
     (∃ now, c = IntervalFires now) ∧ state t = running
     ∧ remainingSeconds t = 0
     ∧ duration p = totalSeconds t ∧ wasBreak p = isBreak t)
  ∧ (completed p = false →
     (∃ now, c = Abort now)
     ∧ duration p = totalSeconds t - remainingSeconds t
     ∧ 60 < duration p ∧ wasBreak p = false).
Proof.
  intros Hr Hp.
  pose proof (remaining_bounds_reachable t Hr) as Hb.
  assert (Hcoh : coherent t).
  { apply reachable_coherent. by eapply reachable_by_weaken; [|exact Hr]. }
  destruct Hcoh as (Hint & _ & Hsst).
  rewrite exec_completions in Hp |- *.
  destruct c; try (by apply elem_of_nil in Hp).
  - (* abort *)
    case_bool_decide as Hlong; [|by apply elem_of_nil in Hp].
    apply list_elem_of_singleton in Hp as ->. cbn.
    split; [done|]. split; [done|]. split.
    { intros Hnone. destruct (Hsst Hnone) as [_ Heq]. lia. }
    split; [lia|]. split; [done|]. intros _.
    split; [by eexists|]. split; [done|]. split; [lia|done].
  - (* the interval *)
    destruct (intervalId t) eqn:Hheld; [|by apply elem_of_nil in Hp].
    case_bool_decide as Hz; [|by apply elem_of_nil in Hp].
    apply list_elem_of_singleton in Hp as ->. cbn.
    assert (Hrun : state t = running) by by apply Hint.
    split; [done|]. split; [done|]. split.
    { intros Hnone. destruct (Hsst Hnone) as [Hidle _]. congruence. }
    split; [lia|]. split; [|done]. intros _.
    split; [by eexists|]. split; [done|]. split; [lia|done].
Qed.

Lemma completion_payload_well_formed_witness :
  let t := after (run (StartBreak 0 0 300
                       :: (IntervalFires <$> everySecond 0 90))) initial in
  let c := Abort 95000 in
  let p := {| duration := 90; startTime := Some 0; endTime := 95000;
              completed := false; wasBreak := false |} in
  completions (fired (exec c) t) = [p]
  ∧ startTime p = sessionStartTime t
  ∧ sessionStartTime t ≠ None
  ∧ 0 ≤ duration p ≤ totalSeconds t
  ∧ (completed p = true →
     (∃ now, c = IntervalFires now) ∧ state t = running
     ∧ remainingSeconds t = 0
     ∧ duration p = totalSeconds t ∧ wasBreak p = isBreak t)
  ∧ (completed p = false →
     (∃ now, c = Abort now)
     ∧ duration p = totalSeconds t - remainingSeconds t
     ∧ 60 < duration p ∧ wasBreak p = false).
Proof.
  apply (completion_payload_well_formed
           (after (run (StartBreak 0 0 300
                        :: (IntervalFires <$> everySecond 0 90))) initial)
           (Abort 95000)).
  - apply reachable_run; [apply reach_initial|].
    apply Forall_cons. split; [simpl; lia|].
    apply Forall_fmap, Forall_true. intros now. exact I.
  - vm_compute. apply list_elem_of_here.
Defined.

(** The warning events of one call. *)
Lemma exec_warnings c t w :
  w ∈ warnings (fired (exec c) t) →
  (w = 300 ∨ w = 60)
  ∧ (∃ now, c = IntervalFires now)
  ∧ intervalId t = true
  ∧ remainingSeconds t = w + 1
  ∧ remainingSeconds (after (exec c) t) = w
  ∧ (w ∉ triggeredWarnings t)
  ∧ w ∈ triggeredWarnings (after (exec c) t).
Proof.
  by_cases_on c t; intros Hw; try (by apply elem_of_nil in Hw);
    destruct held; simpl in *; try (by apply elem_of_nil in Hw);
    repeat (case_bool_decide; simpl in * ); simplify_eq/=;
    try (by apply elem_of_nil in Hw);
    repeat (apply elem_of_cons in Hw as [->|Hw]);
    try (by apply elem_of_nil in Hw);
    try (exfalso; lia);
    (split; [by auto|]); (split; [by eexists|]); (split; [done|]);
    (split; [lia|]); (split; [lia|]); (split; [done|]);
    rewrite ?elem_of_union, ?elem_of_singleton; auto.
Qed.

(** A warning is only ever fired by the interval's tick, carries one of
    the two thresholds 300 and 60, and is fired by the very tick that
    brings [remainingSeconds] down to that threshold, when the threshold
    has not fired yet in the session; no other call fires a warning. *)
Theorem warning_only_at_threshold c t w :
  w ∈ warnings (fired (exec c) t) →
  (w = 300 ∨ w = 60)
  ∧ (∃ now, c = IntervalFires now)
  ∧ state (after (exec c) t) = state t
  ∧ remainingSeconds t = w + 1
  ∧ remainingSeconds (after (exec c) t) = w
  ∧ (w ∉ triggeredWarnings t)
  ∧ w ∈ triggeredWarnings (after (exec c) t).
Proof.
  intros Hw.
  destruct (exec_warnings c t w Hw) as (Hth & [now ->] & Hheld & Hrem & Hrem' & Hnew & Hin).
  split; [done|]. split; [by eexists|]. split; [|done].
  unfold exec, reading, after. rewrite Hheld.
  by destruct (tick_counts_down now t) as (_ & Hs & _); [lia|].
Qed.

Lemma warning_only_at_threshold_witness :
  let t := after (setTime 301 >>> start 0) initial in
  let c := IntervalFires 1000 in
  let w := 300 in
  (w = 300 ∨ w = 60)
  ∧ (∃ now, c = IntervalFires now)
  ∧ state (after (exec c) t) = state t
  ∧ remainingSeconds t = w + 1
  ∧ remainingSeconds (after (exec c) t) = w
  ∧ (w ∉ triggeredWarnings t)
  ∧ w ∈ triggeredWarnings (after (exec c) t).
Proof.
  apply (warning_only_at_threshold (IntervalFires 1000)
           (after (setTime 301 >>> start 0) initial) 300).
  vm_compute. apply list_elem_of_here.
Defined.

(* ------------------------------------------------------------------ *)
(** *** Further properties: formatTime *)
(* ------------------------------------------------------------------ *)

Ltac lia_div := Z.div_mod_to_equations; lia.

Lemma padStart2_pretty x : 0 ≤ x < 100 → padStart2 (pretty x) = twoDigits x.
Proof.
  intros Hx.
  assert (Hall : forallb (λ y, bool_decide (padStart2 (pretty y) = twoDigits y))
                         (seqZ 0 100) = true) by (vm_compute; reflexivity).
  rewrite forallb_forall in Hall.
  eapply bool_decide_eq_true_1, Hall, list_elem_of_In, elem_of_seqZ. lia.
Qed.

Lemma digitChar_inj a b : 0 ≤ a < 10 → 0 ≤ b < 10 → digitChar a = digitChar b → a = b.
Proof.
  unfold digitChar. intros Ha Hb Heq.
  apply (f_equal Ascii.nat_of_ascii) in Heq.
  rewrite !Ascii.nat_ascii_embedding in Heq by lia. lia.
Qed.

Lemma twoDigits_inj a b : 0 ≤ a < 100 → 0 ≤ b < 100 → twoDigits a = twoDigits b → a = b.
Proof.
  unfold twoDigits. intros Ha Hb Heq. injection Heq as Hhi Hlo.
  apply digitChar_inj in Hhi; [|lia_div..].
  apply digitChar_inj in Hlo; [|lia_div..].
  rewrite (Z.div_mod a 10), (Z.div_mod b 10) by lia. congruence.
Qed.

Lemma formatTime_fields secs :
  0 ≤ secs < 360000 →
  formatTime secs =
    {| hours := twoDigits (secs `div` 3600);
       minutes := twoDigits ((secs `mod` 3600) `div` 60);
       seconds := twoDigits (secs `mod` 60);
       formatted := twoDigits (secs `div` 3600) +:+ ":"
                    +:+ twoDigits ((secs `mod` 3600) `div` 60) +:+ ":"
                    +:+ twoDigits (secs `mod` 60) |}.
Proof.
  intros Hs. unfold formatTime.
  rewrite !Z.rem_mod_nonneg by lia.
  rewrite !padStart2_pretty; [done|lia_div..].
Qed.

(** For a time below 100 hours, which covers all the timer can hold,
    [formatTime] gives three two-digit fields (the hours, the minutes
    within the hour and the seconds within the minute), joined as the
    eight characters HH:MM:SS; and the display determines the time: two
    different times in that range never format alike. *)
Theorem formatTime_is_HH_MM_SS secs :
  0 ≤ secs < 360000 →
  let f := formatTime secs in
  hours f = twoDigits (secs `div` 3600)
  ∧ minutes f = twoDigits ((secs `mod` 3600) `div` 60)
  ∧ seconds f = twoDigits (secs `mod` 60)
  ∧ formatted f = hours f +:+ ":" +:+ minutes f +:+ ":" +:+ seconds f
  ∧ String.length (formatted f) = 8%nat
  ∧ ∀ secs', 0 ≤ secs' < 360000 →
             formatted (formatTime secs') = formatted f → secs' = secs.
Proof.
  intros Hs f. unfold f. rewrite formatTime_fields by done.
  cbn [hours minutes seconds formatted].
  split; [done|]. split; [done|]. split; [done|]. split; [done|].
  split; [done|].
  intros secs' Hs'. rewrite formatTime_fields by done.
  cbn [formatted]. unfold twoDigits at 1 2 3 4 5 6. cbn [String.app].
  intros Heq. injection Heq as Hh1 Hh2 Hm1 Hm2 Hs1 Hs2.
  assert (Hh : secs' `div` 3600 = secs `div` 3600).
  { apply twoDigits_inj; [lia_div..|]. unfold twoDigits. congruence. }
  assert (Hm : (secs' `mod` 3600) `div` 60 = (secs `mod` 3600) `div` 60).
  { apply twoDigits_inj; [lia_div..|]. unfold twoDigits. congruence. }
  assert (Hsec : secs' `mod` 60 = secs `mod` 60).
  { apply twoDigits_inj; [lia_div..|]. unfold twoDigits. congruence. }
  clear Hh1 Hh2 Hm1 Hm2 Hs1 Hs2. lia_div.
Qed.

Lemma formatTime_is_HH_MM_SS_witness :
  let f := formatTime 3661 in
  hours f = twoDigits (3661 `div` 3600)
  ∧ minutes f = twoDigits ((3661 `mod` 3600) `div` 60)
  ∧ seconds f = twoDigits (3661 `mod` 60)
  ∧ formatted f = hours f +:+ ":" +:+ minutes f +:+ ":" +:+ seconds f
  ∧ String.length (formatted f) = 8%nat
  ∧ ∀ secs', 0 ≤ secs' < 360000 →
             formatted (formatTime secs') = formatted f → secs' = 3661.
Proof.
  apply (formatTime_is_HH_MM_SS 3661). lia.
Defined.

(** Outside that range the fields are not cut or padded: 100 hours show
    three digits, and a negative time shows signs. *)
Example formatTime_out_of_range :
  formatted (formatTime 360000) = "100:00:00"
  ∧ formatted (formatTime (-5)) = "-1:-1:-5".
Proof. by vm_compute. Qed.

End TimerFacts.

(* ================================================================== *)
(** ** Properties of the history statistics *)
(* ================================================================== *)

Module HistoryFacts.
Import History.

Ltac lia_div := Z.div_mod_to_equations; lia.

(** *** Dates *)

(** Going back 86400000 ms goes back exactly one calendar day. *)
Lemma isoDate_day_before ms : isoDate (ms - 86400000) = isoDate ms - 1.
Proof.
  unfold isoDate.
  replace (ms - 86400000) with (ms + (-1) * 86400000) by lia.
  rewrite Z.div_add by lia. lia.
Qed.

Lemma elem_of_focusDates store day :
  day ∈ focusDates store ↔ hasFocusSession store day.
Proof.
  unfold focusDates, hasFocusSession.
  rewrite elem_of_list_to_set, list_elem_of_fmap. split.
  - intros (s & -> & Hin). exists s.
    apply list_elem_of_In, filter_In in Hin as [Hin Hkeep].
    apply andb_prop in Hkeep as [Hc Hb]. apply negb_true_iff in Hb.
    split; [by apply list_elem_of_In|]. done.
  - intros (s & Hin & Hc & Hb & Hday). exists s. split; [done|].
    apply list_elem_of_In, filter_In. split; [by apply list_elem_of_In|].
    by rewrite Hc, Hb.
Qed.

(** *** The streak loop terminates and counts a run of days *)

Lemma upTo_shrinks day dates :
  day ∈ dates → upTo (day - 1) dates ⊂ upTo day dates.
Proof.
  intros Hin. unfold upTo. split.
  - intros d. rewrite !elem_of_filter. intros [Hle Hd]. split; [lia|done].
  - intros Hsub. assert (Hday : day ∈ filter (λ d, d ≤ day - 1) dates).
    { apply Hsub, elem_of_filter. split; [lia|done]. }
    apply elem_of_filter in Hday as [Hle _]. lia.
Qed.

Lemma streakLoop_counts fuel dates : ∀ checkDate streak,
  (size (upTo (isoDate checkDate) dates) < fuel)%nat →
  ∃ n, 0 ≤ n
       ∧ streakLoop fuel dates checkDate streak = Some (streak + n)
       ∧ (∀ i, 0 ≤ i < n → isoDate checkDate - i ∈ dates)
       ∧ isoDate checkDate - n ∉ dates.
Proof.
  induction fuel as [|fuel IH]; intros checkDate streak Hfuel; [lia|].
  cbn [streakLoop]. case_bool_decide as Hin.
  - destruct (IH (checkDate - 86400000) (streak + 1)) as (n & Hn & Hrun & Hall & Hstop).
    { rewrite isoDate_day_before.
      pose proof (subset_size _ _ (upTo_shrinks _ _ Hin)). lia. }
    rewrite isoDate_day_before in Hall, Hstop.
    exists (n + 1). split; [lia|]. split; [rewrite Hrun; f_equal; lia|]. split.
    + intros i Hi. destruct (decide (i = 0)) as [->|Hne].
      * by rewrite Z.sub_0_r.
      * replace (isoDate checkDate - i)
          with (isoDate checkDate - 1 - (i - 1)) by lia.
        apply Hall. lia.
    + by replace (isoDate checkDate - (n + 1))
        with (isoDate checkDate - 1 - n) by lia.
  - exists 0. split; [done|]. split; [by rewrite Z.add_0_r|]. split.
    + intros i Hi. lia.
    + by rewrite Z.sub_0_r.
Qed.

Lemma upTo_size day (dates : gset Z) : (size (upTo day dates) < S (size dates))%nat.
Proof.
  assert (upTo day dates ⊆ dates) as Hsub.
  { intros d Hd. by apply elem_of_filter in Hd as [_ Hd]. }
  apply subseteq_size in Hsub. lia.
Qed.

(** [getStreak] returns, whatever the clock reads, and what it returns
    is the length of a run of days in [focusDates]. *)
Lemma getStreak_runs clock store :
  ∃ n first,
    getStreak clock store = Some n
    ∧ 0 ≤ n
    ∧ (∀ i, 0 ≤ i < n → first - i ∈ focusDates store).
Proof.
  unfold getStreak.
  set (dates := focusDates store).
  case_bool_decide as Hnone.
  { exists 0, 0. split; [done|]. split; [done|]. intros i Hi. lia. }
  destruct (negb (bool_decide (getTodayString (atToday clock) ∈ dates))
            && negb (bool_decide (isoDate (atYesterday clock - 86400000) ∈ dates))).
  { exists 0, 0. split; [done|]. split; [done|]. intros i Hi. lia. }
  match goal with |- context [streakLoop _ _ ?c 0] =>
    destruct (streakLoop_counts (S (size dates)) dates c 0)
      as (n & Hn & Hrun & Hall & _); [apply upTo_size|];
    exists n, (isoDate c)
  end.
  by rewrite Hrun.
Qed.

(** When all its clock readings fall on the day [today], what
    [getStreak] returns is the length of the run of days in
    [focusDates] that ends today, or yesterday when today is not in
    it. *)
Lemma getStreak_counts clock store today :
  streakWithinDay clock today →
  ∃ n first,
    getStreak clock store = Some n
    ∧ 0 ≤ n
    ∧ first = (if bool_decide (today ∈ focusDates store)
               then today else today - 1)
    ∧ (∀ i, 0 ≤ i < n → first - i ∈ focusDates store)
    ∧ first - n ∉ focusDates store.
Proof.
  intros (Htod & Hyes & Hchk & Hback).
  unfold getStreak, getTodayString. rewrite isoDate_day_before, Htod, Hyes.
  set (dates := focusDates store).
  case_bool_decide as Hnone.
  - (* no completed focus session at all *)
    assert (Hempty : ∀ d, d ∉ dates).
    { intros d. unfold dates, focusDates.
      apply length_zero_iff_nil in Hnone. rewrite Hnone. simpl.
      apply not_elem_of_empty. }
    exists 0, (if bool_decide (today ∈ dates) then today else today - 1).
    split; [done|]. split; [done|]. split; [done|].
    split; [intros i Hi; lia|]. apply Hempty.
  - destruct (bool_decide (today ∈ dates)) eqn:Htoday; cbn [negb andb].
    + destruct (streakLoop_counts (S (size dates)) dates (atCheck clock) 0)
        as (n & Hn & Hrun & Hall & Hstop); [apply upTo_size|].
      rewrite Hchk in Hall, Hstop.
      exists n, today. by rewrite Hrun.
    + destruct (bool_decide (today - 1 ∈ dates)) eqn:Hyest; cbn [negb].
      * destruct (streakLoop_counts (S (size dates)) dates
                    (atCheckBack clock - 86400000) 0)
          as (n & Hn & Hrun & Hall & Hstop); [apply upTo_size|].
        rewrite isoDate_day_before, Hback in Hall, Hstop.
        exists n, (today - 1). by rewrite Hrun.
      * exists 0, (today - 1).
        split; [done|]. split; [done|]. split; [done|].
        split; [intros i Hi; lia|].
        rewrite Z.sub_0_r. by apply bool_decide_eq_false in Hyest.
Qed.

(** C6, as stated, fails on two counts.  [getStreak] reads the clock
    once for [today] and again for the day the walk starts from; with
    one completed session late in the day and UTC midnight passing
    between the two readings, it returns 0, although the streak is one
    day long at either reading.  And its days are the UTC days of
    [toISOString], not local days: west of Greenwich (here with
    [getTimezoneOffset() = 480]) two sessions on consecutive local
    days, today and yesterday, can lie on UTC days two apart, and the
    streak returned is 1. *)
Lemma streak_fails_across_midnight_and_zones :
  (let midnight := 19676 * 86400000 in
   let s := {| id := 1; startTime := midnight - 7200000;
               endTime := midnight - 3600000; duration := 3600;
               completed := true; wasBreak := false |} in
   let store := Some [s] in
   let clock := {| atToday := midnight - 1; atYesterday := midnight - 1;
                   atCheck := midnight + 1; atCheckBack := midnight + 1 |} in
   hasFocusSession store (isoDate (midnight - 1))
   ∧ isoDate (midnight + 1) = isoDate (midnight - 1) + 1
   ∧ getStreak (steadyStreak (midnight - 1)) store = Some 1
   ∧ getStreak (steadyStreak (midnight + 1)) store = Some 1
   ∧ getStreak clock store = Some 0)
  ∧ (let offset := 480 in
     let now := 19676 * 86400000 + 2 * 3600000 in
     let s1 := {| id := 2; startTime := now - 3600000;
                  endTime := now - 1800000; duration := 1800;
                  completed := true; wasBreak := false |} in
     let s2 := {| id := 1; startTime := now - 30 * 3600000;
                  endTime := now - 29 * 3600000; duration := 3600;
                  completed := true; wasBreak := false |} in
     let store := Some [s1; s2] in
     localDay offset (startTime s1) = localDay offset now
     ∧ localDay offset (startTime s2) = localDay offset now - 1
     ∧ isoDate (startTime s1) = isoDate now
     ∧ isoDate (startTime s2) = isoDate now - 2
     ∧ getStreak (steadyStreak now) store = Some 1
     ∧ streak <$> getStats (steady now) store = Some 1).
Proof.
  split.
  - split; [|by vm_compute].
    eexists. split; [apply list_elem_of_here|]. by vm_compute.
  - by vm_compute.
Qed.

(** C6 (amended): [getStreak] returns, whatever the clock reads, and
    [getStats] reports what it returns, a number that is never
    negative.  When all the clock readings of the call fall on the same
    UTC day, today, the streak is the number of consecutive UTC
    calendar days (the dates [toISOString] gives), walking backward
    from today (from yesterday when today has no completed non-break
    session), each of which has at least one completed non-break
    session.  It is then 0 when neither today nor yesterday has one,
    hence also when the latest such day is two or more days back; and
    it is [N] for any run of exactly [N] such days ending today or
    yesterday. *)
Theorem streak_counts_consecutive_days clock store :
  ∃ n st,
    getStreak (atStreak clock) store = Some n
    ∧ getStats clock store = Some st ∧ streak st = n
    ∧ 0 ≤ n
    ∧ ∀ today, streakWithinDay (atStreak clock) today →
      ∃ first,
        (hasFocusSession store today → first = today)
        ∧ (¬ hasFocusSession store today → first = today - 1)
        ∧ (∀ i, 0 ≤ i < n → hasFocusSession store (first - i))
        ∧ ¬ hasFocusSession store (first - n)
        ∧ (¬ hasFocusSession store today →
           ¬ hasFocusSession store (today - 1) → n = 0)
        ∧ ((∀ day, hasFocusSession store day → day ≤ today - 2) → n = 0)
        ∧ (∀ N, 0 ≤ N →
             (∀ i, 0 ≤ i < N → hasFocusSession store (first - i)) →
             ¬ hasFocusSession store (first - N) → n = N).
Proof.
  destruct (getStreak_runs (atStreak clock) store) as (n & _ & Hret & Hn & _).
  eexists n, _. split; [done|]. split.
  { unfold getStats. rewrite Hret. reflexivity. }
  split; [done|]. split; [done|].
  intros today Hday.
  destruct (getStreak_counts (atStreak clock) store today Hday)
    as (n' & first & Hrun & _ & Hfirst & Hall & Hstop).
  rewrite Hret in Hrun. injection Hrun as <-.
  assert (Hall' : ∀ i, 0 ≤ i < n → hasFocusSession store (first - i)).
  { intros i Hi. by apply elem_of_focusDates, Hall. }
  assert (Hstop' : ¬ hasFocusSession store (first - n)).
  { intros Hf. by apply Hstop, elem_of_focusDates. }
  assert (Hto : hasFocusSession store today → first = today).
  { intros Hf. apply elem_of_focusDates in Hf.
    by rewrite Hfirst, bool_decide_true. }
  assert (Hye : ¬ hasFocusSession store today → first = today - 1).
  { intros Hf. rewrite Hfirst, bool_decide_false; [done|].
    intros Hin. by apply Hf, elem_of_focusDates. }
  assert (Hzero : ¬ hasFocusSession store today →
                  ¬ hasFocusSession store (today - 1) → n = 0).
  { intros Hf0 Hf1. destruct (decide (n = 0)) as [|Hne]; [done|].
    exfalso. apply Hf1. rewrite <- (Hye Hf0).
    replace first with (first - 0) by lia. apply Hall'. lia. }
  exists first. split; [done|]. split; [done|].
  split; [done|]. split; [done|]. split; [done|]. split.
  - intros Hgap. apply Hzero.
    + intros Hf. apply Hgap in Hf. lia.
    + intros Hf. apply Hgap in Hf. lia.
  - intros N HN HallN HstopN.
    destruct (Z.lt_trichotomy n N) as [Hlt|[Heq|Hgt]]; [|done|].
    + exfalso. apply Hstop', HallN. lia.
    + exfalso. apply HstopN, Hall'. lia.
Qed.

Lemma streak_counts_consecutive_days_witness :
  let now := 19675 * 86400000 + 3600000 in
  let on d := mkSession d (d * 86400000 + 7200000) (d * 86400000 + 10800000)
                        3600 true false in
  let store := Some [on 19675; on 19674; on 19673; on 19671] in
  let clock := steady now in
  let today := 19675 in
  ∃ n st first,
    getStreak (atStreak clock) store = Some n
    ∧ getStats clock store = Some st ∧ streak st = n
    ∧ 0 ≤ n
    ∧ (hasFocusSession store today → first = today)
    ∧ (¬ hasFocusSession store today → first = today - 1)
    ∧ (∀ i, 0 ≤ i < n → hasFocusSession store (first - i))
    ∧ ¬ hasFocusSession store (first - n)
    ∧ (¬ hasFocusSession store today →
       ¬ hasFocusSession store (today - 1) → n = 0)
    ∧ ((∀ day, hasFocusSession store day → day ≤ today - 2) → n = 0)
    ∧ (∀ N, 0 ≤ N →
         (∀ i, 0 ≤ i < N → hasFocusSession store (first - i)) →
         ¬ hasFocusSession store (first - N) → n = N).
Proof.
  intros now on store clock today.
  destruct (streak_counts_consecutive_days clock store)
    as (n & st & Hret & Hstats & Hst & Hn & Hday).
  destruct (Hday today) as (first & Hrest).
  { vm_compute. repeat split; reflexivity. }
  exists n, st, first. split; [exact Hret|]. split; [exact Hstats|].
  split; [exact Hst|]. split; [exact Hn|]. exact Hrest.
Defined.

(** *** Today's total *)

Lemma foldl_durations (l : list session) : ∀ acc,
  foldl (λ sum s, sum + duration s) acc l
  = acc + foldr Z.add 0 (duration <$> l).
Proof.
  induction l as [|s l IH]; intros acc.
  - simpl. lia.
  - rewrite fmap_cons. cbn [foldl foldr]. rewrite IH. lia.
Qed.

Lemma filter_filter_andb {A} (f g : A → bool) (l : list A) :
  List.filter f (List.filter g l) = List.filter (λ x, g x && f x) l.
Proof.
  induction l as [|x l IH]; simpl; [done|].
  destruct (g x); simpl; [|done]. destruct (f x); by rewrite IH.
Qed.

Lemma getTodayTotal_sum now store :
  getTodayTotal now store =
    sumDurations
      (λ s, bool_decide (isoDate (startTime s) = isoDate now)
            && negb (wasBreak s) && completed s)
      (getSessions store).
Proof.
  unfold getTodayTotal, getTodaySessions, getTodayString, sumDurations.
  rewrite foldl_durations, filter_filter_andb. by rewrite Z.add_0_l.
Qed.




(** Runs of consecutive days, evaluated: three days ending today, two
    days ending yesterday, and a latest session two days back. *)
Example streak_examples :
  let day d := d * 86400000 + 3600000 in
  let done_on d := mkSession (day d) (day d) (day d + 3600000) 3600 true false in
  (streak <$> getStats (steady (day 100))
                (Some [done_on 100; done_on 99; done_on 98; done_on 96]))
    = Some 3
  ∧ (streak <$> getStats (steady (day 100))
                  (Some [done_on 99; done_on 98; done_on 96]))
    = Some 2
  ∧ (streak <$> getStats (steady (day 100))
                  (Some [done_on 98; done_on 97; done_on 96]))
    = Some 0.
Proof. vm_compute. done. Qed.

(* ------------------------------------------------------------------ *)
(** *** Further properties: addSession *)
(* ------------------------------------------------------------------ *)

Lemma addSession_started now written data store started :
  Timer.startTime data = Some started →
  addSession now written data store =
    Some (recordOf now started data,
          saveSessions written
            (if bool_decide (1000 ≤ Z.of_nat (length (getSessions store)))
             then recordOf now started data :: removelast (getSessions store)
             else recordOf now started data :: getSessions store)
            store).
Proof.
  intros Hst. unfold addSession, recordOf. rewrite Hst.
  rewrite orb_false_r. simpl length.
  f_equal. f_equal. f_equal.
  repeat case_bool_decide; try lia; try done.
  destruct (getSessions store) as [|s0 l]; [simpl in *; lia|done].
Qed.

(** [addSession] returns the new record whether or not the write to
    the store goes through.  When it does, the record is at the head
    of the stored list and the oldest one is dropped when the list would
    exceed 1000, so a list within the bound stays within it, and is the
    first 1000 of the new record followed by the old list.  (A longer
    list, which only other code could have stored, keeps its length:
    one record is dropped per call.)  When the write fails, the store
    is left as it was and the record is lost.  A payload without a
    start time makes [addSession] throw. *)
Theorem addSession_prepends_within_bound now written data store started :
  Timer.startTime data = Some started →
  ∃ s store',
    addSession now written data store = Some (s, store')
    ∧ s = recordOf now started data
    ∧ (written = false → store' = store)
    ∧ (written = true →
       head (getSessions store') = Some s
       ∧ ((length (getSessions store) < 1000)%nat →
          getSessions store' = s :: getSessions store)
       ∧ ((length (getSessions store) ≤ 1000)%nat →
          getSessions store' = take 1000 (s :: getSessions store)
          ∧ (length (getSessions store') ≤ 1000)%nat)
       ∧ ((1000 ≤ length (getSessions store))%nat →
          getSessions store' = s :: removelast (getSessions store)
          ∧ length (getSessions store') = length (getSessions store)))
    ∧ ∀ data', Timer.startTime data' = None →
               addSession now written data' store = None.
Proof.
  intros Hst. eexists _, _. split; [by apply addSession_started|].
  split; [done|]. split; [by intros ->|]. split.
  2:{ intros data' Hnone. unfold addSession. by rewrite Hnone. }
  intros ->. cbn [saveSessions getSessions].
  set (old := getSessions store). set (s := recordOf now started data).
  split; [by case_bool_decide|]. split; [|split].
  - intros Hlt. by rewrite bool_decide_false by lia.
  - intros Hle. case_bool_decide as Hfull.
    + assert (Hlen : length old = 1000%nat) by lia.
      assert (Htake : take 1000 (s :: old) = s :: removelast old).
      { change (take 1000 (s :: old)) with (s :: take 999 old).
        f_equal. rewrite removelast_firstn_len, Hlen. done. }
      rewrite Htake. split; [done|].
      cbn [length]. assert (length (removelast old) = 999%nat); [|lia].
      rewrite removelast_firstn_len, Hlen. by rewrite length_take, Hlen.
    + rewrite take_ge by (simpl; lia). split; [done|]. simpl. lia.
  - intros Hge. rewrite bool_decide_true by lia. split; [done|].
    cbn [length]. rewrite removelast_firstn_len, length_take. lia.
Qed.

Lemma addSession_prepends_within_bound_witness :
  let data := {| Timer.duration := 3600; Timer.startTime := Some 1700000000000;
                 Timer.endTime := 1700003601000; Timer.completed := true;
                 Timer.wasBreak := false |} in
  let store : storage := None in
  let written := true in
  ∃ s store',
    addSession 1700003601005 written data store = Some (s, store')
    ∧ s = recordOf 1700003601005 1700000000000 data
    ∧ (written = false → store' = store)
    ∧ (written = true →
       head (getSessions store') = Some s
       ∧ ((length (getSessions store) < 1000)%nat →
          getSessions store' = s :: getSessions store)
       ∧ ((length (getSessions store) ≤ 1000)%nat →
          getSessions store' = take 1000 (s :: getSessions store)
          ∧ (length (getSessions store') ≤ 1000)%nat)
       ∧ ((1000 ≤ length (getSessions store))%nat →
          getSessions store' = s :: removelast (getSessions store)
          ∧ length (getSessions store') = length (getSessions store)))
    ∧ ∀ data', Timer.startTime data' = None →
               addSession 1700003601005 written data' store = None.
Proof.
  apply (addSession_prepends_within_bound 1700003601005 true
           {| Timer.duration := 3600; Timer.startTime := Some 1700000000000;
              Timer.endTime := 1700003601000; Timer.completed := true;
              Timer.wasBreak := false |} None 1700000000000).
  reflexivity.
Defined.

(** A write that fails, evaluated: the record is returned and the
    store still holds nothing. *)
Example addSession_write_fails :
  let data := {| Timer.duration := 3600; Timer.startTime := Some 1700000000000;
                 Timer.endTime := 1700003601000; Timer.completed := true;
                 Timer.wasBreak := false |} in
  addSession 1700003601005 false data None
  = Some (recordOf 1700003601005 1700000000000 data, None).
Proof. reflexivity. Qed.

(* ------------------------------------------------------------------ *)
(** *** Further properties: the statistics *)
(* ------------------------------------------------------------------ *)

Lemma getStats_returns clock store :
  ∃ n, getStreak (atStreak clock) store = Some n
    ∧ getStats clock store =
        Some {| todayTotal := getTodayTotal (atTodayTotal clock) store;
                todayFormatted :=
                  formatDuration (getTodayTotal (atTodayFormatted clock) store);
                completedCount :=
                  Z.of_nat (length (List.filter (λ s, completed s)
                    (List.filter (λ s, negb (wasBreak s)) (getSessions store))));
                abortedCount :=
                  Z.of_nat (length (List.filter (λ s, negb (completed s))
                    (List.filter (λ s, negb (wasBreak s)) (getSessions store))));
                streak := n;
                totalTime :=
                  foldl (λ sum s, sum + duration s) 0
                    (List.filter (λ s, negb (wasBreak s)) (getSessions store));
                totalTimeFormatted :=
                  formatDuration
                    (foldl (λ sum s, sum + duration s) 0
                       (List.filter (λ s, negb (wasBreak s))
                                    (getSessions store))) |}.
Proof.
  destruct (getStreak_runs (atStreak clock) store) as (n & first & Hrun & _).
  exists n. split; [done|]. unfold getStats. by rewrite Hrun.
Qed.

Lemma size_list_to_set_le (l : list Z) :
  (size (list_to_set l : gset Z) ≤ length l)%nat.
Proof.
  induction l as [|x l IH]; [by rewrite list_to_set_nil, size_empty|].
  rewrite list_to_set_cons, size_union_alt, size_singleton. cbn [length].
  assert (Hsub : list_to_set l ∖ {[x]} ⊆ (list_to_set l : gset Z)).
  { intros y Hy. by apply elem_of_difference in Hy as [Hy _]. }
  apply subseteq_size in Hsub. lia.
Qed.

Lemma filter_length_split {A} (f : A → bool) (l : list A) :
  (length (List.filter f l) + length (List.filter (λ x, negb (f x)) l)
   = length l)%nat.
Proof.
  induction l as [|x l IH]; [done|]. simpl.
  destruct (f x); simpl; lia.
Qed.

Lemma streak_run_within_dates (dates : gset Z) first n :
  0 ≤ n → (∀ i, 0 ≤ i < n → first - i ∈ dates) → n ≤ Z.of_nat (size dates).
Proof.
  intros Hn Hall.
  set (run := (λ i, first - i) <$> seqZ 0 n).
  assert (Hnd : NoDup run).
  { apply NoDup_fmap_2; [|apply NoDup_seqZ]. intros i j Hij. lia. }
  assert (Hsub : (list_to_set run : gset Z) ⊆ dates).
  { intros d Hd. apply elem_of_list_to_set, list_elem_of_fmap in Hd
      as (i & -> & Hi). apply elem_of_seqZ in Hi. apply Hall. lia. }
  apply subseteq_size in Hsub. rewrite size_list_to_set in Hsub by done.
  unfold run in Hsub. rewrite length_fmap, length_seqZ in Hsub. lia.
Qed.

(** The figures of [getStats()] hang together, whatever the store holds
    and whatever the clock reads at each of its readings: its completed
    count is what [getCompletedCount()] returns; completed and aborted
    counts add up to the number of non-break sessions; and the streak
    is never negative and never more than the completed count, each day
    of the streak having a completed session of its own.  The formatted
    total of today comes from a second call of [getTodayTotal()], with
    a clock reading of its own: it is the format of the reported total
    when both readings fall on the same UTC day. *)
Theorem stats_are_consistent clock store :
  ∃ st, getStats clock store = Some st
    ∧ completedCount st = getCompletedCount store
    ∧ completedCount st + abortedCount st =
        Z.of_nat (length (List.filter (λ s, negb (wasBreak s))
                                      (getSessions store)))
    ∧ 0 ≤ streak st ≤ completedCount st
    ∧ todayFormatted st
      = formatDuration (getTodayTotal (atTodayFormatted clock) store)
    ∧ (isoDate (atTodayFormatted clock) = isoDate (atTodayTotal clock) →
       todayFormatted st = formatDuration (todayTotal st))
    ∧ totalTimeFormatted st = formatDuration (totalTime st)
    ∧ totalTime st = sumDurations (λ s, negb (wasBreak s)) (getSessions store).
Proof.
  destruct (getStreak_runs (atStreak clock) store)
    as (n & first & Hrun & Hn & Hall).
  destruct (getStats_returns clock store) as (n' & Hrun' & Hst).
  rewrite Hrun in Hrun'. injection Hrun' as <-.
  eexists. split; [exact Hst|]. cbn.
  assert (Hcount : Z.of_nat (length (List.filter (λ s, completed s)
             (List.filter (λ s, negb (wasBreak s)) (getSessions store))))
           = getCompletedCount store).
  { unfold getCompletedCount. rewrite filter_filter_andb.
    do 2 f_equal. apply filter_ext. intros s. apply andb_comm. }
  split; [done|]. split.
  { pose proof (filter_length_split (λ s, completed s)
      (List.filter (λ s, negb (wasBreak s)) (getSessions store))). lia. }
  split.
  { split; [done|]. rewrite Hcount. unfold getCompletedCount.
    pose proof (streak_run_within_dates (focusDates store) first n Hn Hall).
    pose proof (size_list_to_set_le
      ((λ s, isoDate (startTime s)) <$>
         List.filter (λ s, completed s && negb (wasBreak s))
                     (getSessions store))) as Hsz.
    rewrite length_fmap in Hsz. unfold focusDates in *. lia. }
  split; [done|]. split.
  { intros Hday. by rewrite !getTodayTotal_sum, Hday. }
  split; [done|].
  unfold sumDurations. by rewrite foldl_durations, Z.add_0_l.
Qed.

Lemma stats_are_consistent_witness :
  let now := 1700000000000 in
  let store := Some [ mkSession 3 (now - 3600000) (now - 1800000) 1800 true false;
                      mkSession 2 (now - 90000000) (now - 86400000) 3600 true false;
                      mkSession 1 (now - 99000000) (now - 98000000) 300 true true ] in
  let clock := steady now in
  ∃ st, getStats clock store = Some st
    ∧ completedCount st = getCompletedCount store
    ∧ completedCount st + abortedCount st =
        Z.of_nat (length (List.filter (λ s, negb (wasBreak s))
                                      (getSessions store)))
    ∧ 0 ≤ streak st ≤ completedCount st
    ∧ todayFormatted st
      = formatDuration (getTodayTotal (atTodayFormatted clock) store)
    ∧ (isoDate (atTodayFormatted clock) = isoDate (atTodayTotal clock) →
       todayFormatted st = formatDuration (todayTotal st))
    ∧ totalTimeFormatted st = formatDuration (totalTime st)
    ∧ totalTime st = sumDurations (λ s, negb (wasBreak s)) (getSessions store).
Proof.
  apply (stats_are_consistent (steady 1700000000000)).
Defined.

(** The two figures for today, evaluated with UTC midnight between the
    two calls of [getTodayTotal()]: the total is that of the day that
    ends, the formatted total that of the day that begins. *)
Example stats_today_across_midnight :
  let midnight := 19676 * 86400000 in
  let store := Some [ mkSession 1 (midnight - 7200000) (midnight - 3600000)
                                3600 true false ] in
  let clock := {| atTodayTotal := midnight - 1;
                  atTodayFormatted := midnight + 1;
                  atStreak := steadyStreak (midnight + 1) |} in
  (todayTotal <$> getStats clock store) = Some 3600
  ∧ (todayFormatted <$> getStats clock store) = Some "0m"
  ∧ formatDuration 3600 = "1h 0m".
Proof. vm_compute. done. Qed.

Lemma sumDurations_le (keep keep' : session → bool) l :
  Forall (λ s, 0 ≤ duration s) l →
  (∀ s, keep s = true → keep' s = true) →
  0 ≤ sumDurations keep l ≤ sumDurations keep' l.
Proof.
  intros Hpos Himp. unfold sumDurations.
  induction Hpos as [|s l Hs Hl IH]; [done|]. cbn [List.filter].
  specialize (Himp s).
  destruct (keep s), (keep' s); rewrite ?fmap_cons; cbn [foldr]; lia.
Qed.

(** When no stored duration is negative, today's total is between 0 and
    the all-time total, whatever the clock reads. *)
Theorem todayTotal_within_totalTime clock store :
  Forall (λ s, 0 ≤ duration s) (getSessions store) →
  ∃ st, getStats clock store = Some st
    ∧ 0 ≤ todayTotal st ≤ totalTime st.
Proof.
  intros Hpos. destruct (getStats_returns clock store) as (n & _ & Hst).
  eexists. split; [exact Hst|]. cbn [todayTotal totalTime].
  rewrite getTodayTotal_sum, foldl_durations, Z.add_0_l.
  apply (sumDurations_le _ (λ s, negb (wasBreak s))); [done|].
  intros s Hkeep. apply andb_prop in Hkeep as [Hkeep _].
  by apply andb_prop in Hkeep as [_ Hkeep].
Qed.

Lemma todayTotal_within_totalTime_witness :
  let now := 1700000000000 in
  let store := Some [ mkSession 3 (now - 3600000) (now - 1800000) 1800 true false;
                      mkSession 2 (now - 90000000) (now - 86400000) 3600 true false;
                      mkSession 1 (now - 99000000) (now - 98000000) 300 true true ] in
  ∃ st, getStats (steady now) store = Some st
    ∧ 0 ≤ todayTotal st ≤ totalTime st.
Proof.
  apply (todayTotal_within_totalTime (steady 1700000000000)).
  simpl. repeat (apply Forall_cons; split; [simpl; lia|]). apply Forall_nil_2.
Defined.

(* ------------------------------------------------------------------ *)
(** *** Further properties: logging a session and reading it back *)
(* ------------------------------------------------------------------ *)

Lemma sumDurations_cons keep s l :
  sumDurations keep (s :: l)
  = (if keep s then duration s else 0) + sumDurations keep l.
Proof.
  unfold sumDurations. cbn [List.filter].
  destruct (keep s); rewrite ?fmap_cons; cbn [foldr]; lia.
Qed.

Lemma filter_length_cons {A} (f : A → bool) x (l : list A) :
  Z.of_nat (length (List.filter f (x :: l)))
  = (if f x then 1 else 0) + Z.of_nat (length (List.filter f l)).
Proof. cbn [List.filter]. destruct (f x); cbn [length]; lia. Qed.

(** The statistics read before and after a record is put in front of
    the list, each reading with a clock of its own. *)
Lemma stats_after_cons clock clock' s store :
  ∃ st st',
    getStats clock store = Some st
    ∧ getStats clock' (Some (s :: getSessions store)) = Some st'
    ∧ totalTime st' =
        totalTime st + (if negb (wasBreak s) then duration s else 0)
    ∧ completedCount st' =
        completedCount st
        + (if negb (wasBreak s) && completed s then 1 else 0)
    ∧ abortedCount st' =
        abortedCount st
        + (if negb (wasBreak s) && negb (completed s) then 1 else 0)
    ∧ (isoDate (atTodayTotal clock') = isoDate (atTodayTotal clock) →
       todayTotal st' =
         todayTotal st
         + (if bool_decide (isoDate (startTime s)
                            = isoDate (atTodayTotal clock'))
               && negb (wasBreak s) && completed s
            then duration s else 0))
    ∧ (completed s = true → wasBreak s = false →
       streakWithinDay (atStreak clock') (isoDate (startTime s)) →
       1 ≤ streak st').
Proof.
  set (store' := Some (s :: getSessions store)).
  destruct (getStats_returns clock store) as (n & Hn & Hstats).
  destruct (getStats_returns clock' store') as (n' & Hn' & Hstats').
  eexists _, _.
  split; [exact Hstats|]. split; [exact Hstats'|].
  cbn [totalTime completedCount abortedCount todayTotal streak].
  rewrite !getTodayTotal_sum, !foldl_durations, !Z.add_0_l.
  rewrite !filter_filter_andb.
  unfold store'. cbn [getSessions].
  fold (sumDurations (λ s0, negb (wasBreak s0)) (s :: getSessions store)).
  fold (sumDurations (λ s0, negb (wasBreak s0)) (getSessions store)).
  rewrite !sumDurations_cons, !filter_length_cons.
  split; [lia|]. split; [lia|]. split; [lia|]. split.
  { intros Hday. rewrite Hday. lia. }
  intros Hc Hb Htoday.
  destruct (getStreak_counts (atStreak clock') store' _ Htoday)
    as (m & first & Hm & Hm0 & Hfirst & _ & Hstop).
  rewrite Hn' in Hm. injection Hm as <-.
  assert (Hin : isoDate (startTime s) ∈ focusDates store').
  { apply elem_of_focusDates. exists s. split; [apply list_elem_of_here|done]. }
  rewrite bool_decide_true in Hfirst by done. subst first.
  destruct (decide (n' = 0)) as [->|Hne]; [|lia].
  rewrite Z.sub_0_r in Hstop. done.
Qed.

(** Logging a session into a store that is not full changes the
    statistics by that session alone, when the write goes through: a
    non-break session adds its duration to the all-time total and one
    to the completed or to the aborted count; it adds its duration to
    today's total when it started today and was completed (the
    statistics being read before and after on the same UTC day); a
    break changes none of these figures.  After a completed non-break
    session the streak is at least one day, when all the clock readings
    of [getStreak] fall on the UTC day on which the session started.
    When the write fails the store is as before, and with it the
    all-time total and the two counts. *)
Theorem logged_session_updates_stats clock clock' idNow written data store started :
  Timer.startTime data = Some started →
  (length (getSessions store) < 1000)%nat →
  ∃ s store' st st',
    addSession idNow written data store = Some (s, store')
    ∧ getStats clock store = Some st
    ∧ getStats clock' store' = Some st'
    ∧ (written = false →
       store' = store
       ∧ totalTime st' = totalTime st
       ∧ completedCount st' = completedCount st
       ∧ abortedCount st' = abortedCount st)
    ∧ (written = true →
       totalTime st' =
         totalTime st + (if negb (wasBreak s) then duration s else 0)
       ∧ completedCount st' =
           completedCount st
           + (if negb (wasBreak s) && completed s then 1 else 0)
       ∧ abortedCount st' =
           abortedCount st
           + (if negb (wasBreak s) && negb (completed s) then 1 else 0)
       ∧ (isoDate (atTodayTotal clock') = isoDate (atTodayTotal clock) →
          todayTotal st' =
            todayTotal st
            + (if bool_decide (isoDate (startTime s)
                               = isoDate (atTodayTotal clock'))
                  && negb (wasBreak s) && completed s
               then duration s else 0))
       ∧ (completed s = true → wasBreak s = false →
          streakWithinDay (atStreak clock') (isoDate (startTime s)) →
          1 ≤ streak st')).
Proof.
  intros Hst Hroom.
  pose proof (addSession_started idNow written data store started Hst) as Hadd.
  rewrite bool_decide_false in Hadd by lia.
  destruct written; cbn [saveSessions] in Hadd.
  - destruct (stats_after_cons clock clock' (recordOf idNow started data) store)
      as (st & st' & Hs & Hs' & Hrest).
    eexists _, _, st, st'. split; [exact Hadd|]. split; [done|].
    split; [done|]. split; [done|]. by intros _.
  - destruct (getStats_returns clock store) as (n & _ & Hs).
    destruct (getStats_returns clock' store) as (n' & _ & Hs').
    eexists _, _, _, _. split; [exact Hadd|]. split; [exact Hs|].
    split; [exact Hs'|]. split; [done|]. done.
Qed.

Lemma logged_session_updates_stats_witness :
  let clock := steady 1700003600000 in
  let clock' := steady 1700003700000 in
  let idNow := 1700003601005 in
  let written := true in
  let data := {| Timer.duration := 3600; Timer.startTime := Some 1700000000000;
                 Timer.endTime := 1700003601000; Timer.completed := true;
                 Timer.wasBreak := false |} in
  let store : storage := None in
  ∃ s store' st st',
    addSession idNow written data store = Some (s, store')
    ∧ getStats clock store = Some st
    ∧ getStats clock' store' = Some st'
    ∧ (written = false →
       store' = store
       ∧ totalTime st' = totalTime st
       ∧ completedCount st' = completedCount st
       ∧ abortedCount st' = abortedCount st)
    ∧ (written = true →
       totalTime st' =
         totalTime st + (if negb (wasBreak s) then duration s else 0)
       ∧ completedCount st' =
           completedCount st
           + (if negb (wasBreak s) && completed s then 1 else 0)
       ∧ abortedCount st' =
           abortedCount st
           + (if negb (wasBreak s) && negb (completed s) then 1 else 0)
       ∧ (isoDate (atTodayTotal clock') = isoDate (atTodayTotal clock) →
          todayTotal st' =
            todayTotal st
            + (if bool_decide (isoDate (startTime s)
                               = isoDate (atTodayTotal clock'))
                  && negb (wasBreak s) && completed s
               then duration s else 0))
       ∧ (completed s = true → wasBreak s = false →
          streakWithinDay (atStreak clock') (isoDate (startTime s)) →
          1 ≤ streak st')).
Proof.
  apply (logged_session_updates_stats (steady 1700003600000)
           (steady 1700003700000) 1700003601005 true
           {| Timer.duration := 3600; Timer.startTime := Some 1700000000000;
              Timer.endTime := 1700003601000; Timer.completed := true;
              Timer.wasBreak := false |} None 1700000000000).
  - reflexivity.
  - simpl. lia.
Defined.

Section RecentSessions.
Variable toLocaleTimeString : Z → string.
Variable toLocaleDateString : Z → string.

Lemma slice0_take {A} (limit : Z) (l : list A) :
  0 ≤ limit → slice0 limit l = take (Z.to_nat limit) l.
Proof. intros Hl. unfold slice0. by rewrite bool_decide_false by lia. Qed.

Lemma entry_imap (f : nat → session → recentSession) (l : list session) :
  (∀ i s, entry (f i s) = s) → entry <$> imap f l = l.
Proof.
  revert f. induction l as [|s l IH]; intros f Hf; [done|].
  rewrite imap_cons, fmap_cons, Hf. f_equal. apply IH.
  intros i s'. apply Hf.
Qed.

(** With a non-negative limit, [getRecentSessions] returns at most
    [limit] entries, none of them a break, all of them stored
    sessions, in the order of the store (they are the first of the
    non-break sessions), each with its duration formatted. *)
Theorem recent_sessions_bounded reads limit store :
  0 ≤ limit →
  let result := getRecentSessions toLocaleTimeString toLocaleDateString
                  reads (Some limit) store in
  Z.of_nat (length result) ≤ limit
  ∧ entry <$> result
    = take (Z.to_nat limit)
           (List.filter (λ s, negb (wasBreak s)) (getSessions store))
  ∧ (entry <$> result) `sublist_of` getSessions store
  ∧ ∀ r, r ∈ result →
         wasBreak (entry r) = false
         ∧ entry r ∈ getSessions store
         ∧ durationFormatted r = formatDuration (duration (entry r)).
Proof.
  intros Hl result. unfold result, getRecentSessions.
  change (default 20 (Some limit)) with limit.
  rewrite slice0_take by done.
  set (focus := List.filter (λ s, negb (wasBreak s)) (getSessions store)).
  assert (Hfocus : ∀ s, s ∈ focus → wasBreak s = false ∧ s ∈ getSessions store).
  { intros s Hs. apply list_elem_of_In, filter_In in Hs as [Hin Hb].
    split; [by apply negb_true_iff|by apply list_elem_of_In]. }
  split; [rewrite length_imap, length_take; lia|].
  rewrite entry_imap by done.
  split; [done|]. split.
  { etrans; [apply sublist_take|].
    unfold focus. clear. induction (getSessions store) as [|s l IH];
      [done|]. cbn [List.filter].
    destruct (negb (wasBreak s)); by constructor. }
  intros r Hr. apply elem_of_lookup_imap in Hr as (i & s & -> & Hs).
  cbn [entry durationFormatted].
  apply list_elem_of_lookup_2, subseteq_take, Hfocus in Hs as [Hb Hin]. done.
Qed.

(** A non-break session that has just been logged is the first entry
    of [getRecentSessions], for any limit of at least one and for the
    default limit, whether or not the store was full, when the write
    to the store went through.  When the write failed, the session is
    not in the list: the recent sessions are those of the store as it
    was. *)
Theorem logged_session_is_most_recent reads idNow written data store started limit :
  Timer.startTime data = Some started →
  Timer.wasBreak data = false →
  1 ≤ default 20 limit →
  ∃ s store',
    addSession idNow written data store = Some (s, store')
    ∧ (written = true →
       head (getRecentSessions toLocaleTimeString toLocaleDateString
                               reads limit store') =
         Some {| entry := s;
                 durationFormatted := formatDuration (Timer.duration data);
                 dateFormatted :=
                   formatDate toLocaleTimeString toLocaleDateString
                              (reads 0%nat).1 (reads 0%nat).2 started |})
    ∧ (written = false →
       getRecentSessions toLocaleTimeString toLocaleDateString
                         reads limit store'
       = getRecentSessions toLocaleTimeString toLocaleDateString
                           reads limit store).
Proof.
  intros Hst Hb Hl.
  eexists _, _. split; [by apply addSession_started|].
  split; [|by intros ->].
  intros ->. cbn [saveSessions].
  unfold getRecentSessions. rewrite slice0_take by lia.
  cbn [getSessions].
  assert (Hhead : ∀ l, List.filter (λ s, negb (wasBreak s))
                         (recordOf idNow started data :: l)
                       = recordOf idNow started data
                         :: List.filter (λ s, negb (wasBreak s)) l).
  { intros l. cbn [List.filter recordOf wasBreak]. by rewrite Hb. }
  destruct (Z.to_nat (default 20 limit)) as [|k] eqn:Hk; [lia|].
  case_bool_decide; by rewrite Hhead.
Qed.
End RecentSessions.

Lemma recent_sessions_bounded_witness :
  let now := 1700000000000 in
  let store := Some [ mkSession 3 (now - 3600000) (now - 1800000) 1800 true false;
                      mkSession 2 (now - 5000000) (now - 4700000) 300 true true;
                      mkSession 1 (now - 99000000) (now - 98000000) 900 false false ] in
  let result := getRecentSessions (λ _, "21:13") (λ _, "Nov 14")
                  (λ _, (now, now)) (Some 1) store in
  Z.of_nat (length result) ≤ 1
  ∧ entry <$> result
    = take (Z.to_nat 1)
           (List.filter (λ s, negb (wasBreak s)) (getSessions store))
  ∧ (entry <$> result) `sublist_of` getSessions store
  ∧ ∀ r, r ∈ result →
         wasBreak (entry r) = false
         ∧ entry r ∈ getSessions store
         ∧ durationFormatted r = formatDuration (duration (entry r)).
Proof.
  apply (recent_sessions_bounded (λ _, "21:13") (λ _, "Nov 14")
           (λ _, (1700000000000, 1700000000000)) 1).
  lia.
Defined.

Lemma logged_session_is_most_recent_witness :
  let data := {| Timer.duration := 3600; Timer.startTime := Some 1700000000000;
                 Timer.endTime := 1700003601000; Timer.completed := true;
                 Timer.wasBreak := false |} in
  let reads := λ _ : nat, (1700003700000, 1700003700000) in
  let written := true in
  ∃ s store',
    addSession 1700003601005 written data None = Some (s, store')
    ∧ (written = true →
       head (getRecentSessions (λ _, "21:13") (λ _, "Nov 14")
                               reads None store') =
         Some {| entry := s;
                 durationFormatted := formatDuration (Timer.duration data);
                 dateFormatted :=
                   formatDate (λ _, "21:13") (λ _, "Nov 14")
                              (reads 0%nat).1 (reads 0%nat).2 1700000000000 |})
    ∧ (written = false →
       getRecentSessions (λ _, "21:13") (λ _, "Nov 14") reads None store'
       = getRecentSessions (λ _, "21:13") (λ _, "Nov 14") reads None None).
Proof.
  apply (logged_session_is_most_recent (λ _, "21:13") (λ _, "Nov 14")
           (λ _, (1700003700000, 1700003700000)) 1700003601005 true
           {| Timer.duration := 3600; Timer.startTime := Some 1700000000000;
              Timer.endTime := 1700003601000; Timer.completed := true;
              Timer.wasBreak := false |} None 1700000000000 None).
  - reflexivity.
  - reflexivity.
  - simpl. lia.
Defined.

(** A negative limit drops sessions from the end instead: with three
    non-break sessions stored, a limit of -1 returns the first two. *)
Example recent_sessions_negative_limit :
  let store := Some [ mkSession 3 3000 3500 500 true false;
                      mkSession 2 2000 2500 500 true false;
                      mkSession 1 1000 1500 500 false false ] in
  id <$> (entry <$> getRecentSessions (λ _, "") (λ _, "")
                      (λ _, (4000, 4000)) (Some (-1)) store)
  = [3; 2].
Proof. reflexivity. Qed.

(* ------------------------------------------------------------------ *)
(** *** Further properties: settings, clearAll, formatDuration *)
(* ------------------------------------------------------------------ *)

(** A saved setting is read back when the write to the storage went
    through; when it failed, the storage is as it was and the setting
    reads as before.  Either way other keys read as before and the
    sessions are untouched; a key that is not stored reads as the
    default.  This holds for keys other than [__proto__] and
    [hasOwnProperty] in a settings object without a [hasOwnProperty]
    key. *)
Theorem setting_round_trip written key v d ls :
  key ≠ "__proto__" →
  key ≠ "hasOwnProperty" →
  getSettings ls !! "hasOwnProperty" = None →
  (written = true → getSetting key d (saveSetting written key v ls) = Some v)
  ∧ (written = false →
     saveSetting written key v ls = ls
     ∧ getSetting key d (saveSetting written key v ls) = getSetting key d ls)
  ∧ (∀ k d', k ≠ key →
       getSetting k d' (saveSetting written key v ls) = getSetting k d' ls)
  ∧ questlog_sessions (saveSetting written key v ls) = questlog_sessions ls
  ∧ (getSettings ls !! key = None → getSetting key d ls = Some d)
  ∧ saveSetting written key v (saveSetting written key v ls)
    = saveSetting written key v ls.
Proof.
  intros Hproto Hown Hfree.
  assert (Hassign : ∀ m, assign key v m = <[key := v]> m).
  { intros m. unfold assign. by rewrite bool_decide_false. }
  assert (Hdef : getSettings ls !! key = None → getSetting key d ls = Some d).
  { intros Hk. unfold getSetting. by rewrite Hfree, Hk. }
  destruct written; cbn [saveSetting].
  - unfold getSetting, getSettings in *. cbn [questlog_settings default].
    rewrite !Hassign. cbn.
    rewrite lookup_insert_ne by done. rewrite Hfree.
    split; [by rewrite lookup_insert_eq|]. split; [done|]. split.
    { intros k d' Hk. by rewrite lookup_insert_ne. }
    split; [done|]. split; [by intros ->|].
    by rewrite insert_insert_eq.
  - split; [done|]. split; [done|]. done.
Qed.

Lemma setting_round_trip_witness :
  let ls := {| questlog_sessions := None; questlog_settings := None |} in
  let key := "muted" in
  let v := VBool true in
  let d := VBool false in
  let written := true in
  (written = true → getSetting key d (saveSetting written key v ls) = Some v)
  ∧ (written = false →
     saveSetting written key v ls = ls
     ∧ getSetting key d (saveSetting written key v ls) = getSetting key d ls)
  ∧ (∀ k d', k ≠ key →
       getSetting k d' (saveSetting written key v ls) = getSetting k d' ls)
  ∧ questlog_sessions (saveSetting written key v ls) = questlog_sessions ls
  ∧ (getSettings ls !! key = None → getSetting key d ls = Some d)
  ∧ saveSetting written key v (saveSetting written key v ls)
    = saveSetting written key v ls.
Proof.
  apply (setting_round_trip true "muted" (VBool true) (VBool false)
           {| questlog_sessions := None; questlog_settings := None |}).
  - vm_compute. discriminate.
  - vm_compute. discriminate.
  - reflexivity.
Defined.

(** A setting whose write fails, evaluated: it reads back as the
    default. *)
Example setting_write_fails :
  let ls := {| questlog_sessions := None; questlog_settings := None |} in
  getSetting "muted" (VBool false) (saveSetting false "muted" (VBool true) ls)
  = Some (VBool false).
Proof. reflexivity. Qed.

Lemma getSettings_saveSetting key v ls :
  getSettings (saveSetting true key v ls) = assign key v (getSettings ls).
Proof. reflexivity. Qed.

(** The two keys that break the round trip.  Once a setting named
    [hasOwnProperty] is saved (its write having gone through), every
    [getSetting] throws, whatever key it asks for.  And a setting named
    [__proto__] is not stored at all when the settings do not hold that
    key already, whether or not the write goes through: it reads back
    as the default. *)
Theorem setting_reserved_keys written v d ls :
  (∀ k, getSetting k d (saveSetting true "hasOwnProperty" v ls) = None)
  ∧ (getSettings ls !! "__proto__" = None →
     getSettings (saveSetting written "__proto__" v ls) = getSettings ls
     ∧ (getSettings ls !! "hasOwnProperty" = None →
        getSetting "__proto__" d (saveSetting written "__proto__" v ls)
        = Some d)).
Proof.
  split.
  - intros k. unfold getSetting. rewrite getSettings_saveSetting.
    unfold assign. rewrite bool_decide_false by done.
    cbn [andb]. by rewrite lookup_insert_eq.
  - intros Hfree.
    assert (Hsame : getSettings (saveSetting written "__proto__" v ls)
                    = getSettings ls).
    { destruct written; [|done]. rewrite getSettings_saveSetting.
      unfold assign. by rewrite !bool_decide_true by done. }
    split; [done|]. intros Hown. unfold getSetting. rewrite Hsame.
    by rewrite Hown, Hfree.
Qed.

Lemma setting_reserved_keys_witness :
  let ls := {| questlog_sessions := None;
               questlog_settings := Some {["muted" := VBool true]} |} in
  let v := VBool true in
  let d := VBool false in
  let written := true in
  (∀ k, getSetting k d (saveSetting true "hasOwnProperty" v ls) = None)
  ∧ (getSettings ls !! "__proto__" = None →
     getSettings (saveSetting written "__proto__" v ls) = getSettings ls
     ∧ (getSettings ls !! "hasOwnProperty" = None →
        getSetting "__proto__" d (saveSetting written "__proto__" v ls)
        = Some d)).
Proof.
  apply (setting_reserved_keys true (VBool true) (VBool false)
           {| questlog_sessions := None;
              questlog_settings := Some {["muted" := VBool true]} |}).
Defined.

Section ClearAll.
Variable toLocaleTimeString : Z → string.
Variable toLocaleDateString : Z → string.

(** [clearAll()] removes the sessions and nothing else: afterwards
    the session list and the recent list are empty and every figure
    of the statistics is zero, whatever the clock reads, while every
    setting reads as before. *)
Theorem clearAll_empties_history_only clock reads limit ls :
  getSessions (questlog_sessions (clearAll ls)) = []
  ∧ getRecentSessions toLocaleTimeString toLocaleDateString reads limit
      (questlog_sessions (clearAll ls)) = []
  ∧ getStats clock (questlog_sessions (clearAll ls)) =
      Some {| todayTotal := 0; todayFormatted := "0m";
              completedCount := 0; abortedCount := 0; streak := 0;
              totalTime := 0; totalTimeFormatted := "0m" |}
  ∧ getCompletedCount (questlog_sessions (clearAll ls)) = 0
  ∧ getSettings (clearAll ls) = getSettings ls
  ∧ (∀ k d, getSetting k d (clearAll ls) = getSetting k d ls)
  ∧ clearAll (clearAll ls) = clearAll ls.
Proof.
  split; [done|]. split.
  { unfold getRecentSessions, slice0. cbn [clearAll questlog_sessions
      getSessions List.filter]. destruct (bool_decide _);
      by rewrite take_nil. }
  repeat split; reflexivity.
Qed.
End ClearAll.

(** [formatDuration] shows whole minutes only: for a non-negative
    duration the seconds within the minute make no difference, a
    duration under a minute shows as 0m, and the hours appear exactly
    from one hour on, with the minutes within the hour. *)
Theorem formatDuration_whole_minutes secs :
  0 ≤ secs →
  formatDuration secs = formatDuration (60 * (secs `div` 60))
  ∧ (secs < 60 → formatDuration secs = "0m")
  ∧ (secs < 3600 → formatDuration secs = pretty (secs `div` 60) +:+ "m")
  ∧ (3600 ≤ secs →
     formatDuration secs =
       pretty (secs `div` 3600) +:+ "h "
       +:+ pretty ((secs `mod` 3600) `div` 60) +:+ "m").
Proof.
  intros Hs. unfold formatDuration.
  rewrite !Z.rem_mod_nonneg by lia_div.
  assert (Hh : (60 * (secs `div` 60)) `div` 3600 = secs `div` 3600) by lia_div.
  assert (Hm : ((60 * (secs `div` 60)) `mod` 3600) `div` 60
               = (secs `mod` 3600) `div` 60) by lia_div.
  rewrite Hh, Hm. split; [done|]. split; [|split].
  - intros Hlt. rewrite bool_decide_false by lia_div.
    replace ((secs `mod` 3600) `div` 60) with 0 by lia_div. done.
  - intros Hlt. rewrite bool_decide_false by lia_div.
    by replace ((secs `mod` 3600) `div` 60) with (secs `div` 60) by lia_div.
  - intros Hge. by rewrite bool_decide_true by lia_div.
Qed.

Lemma formatDuration_whole_minutes_witness :
  formatDuration 3725 = formatDuration (60 * (3725 `div` 60))
  ∧ (3725 < 60 → formatDuration 3725 = "0m")
  ∧ (3725 < 3600 → formatDuration 3725 = pretty (3725 `div` 60) +:+ "m")
  ∧ (3600 ≤ 3725 →
     formatDuration 3725 =
       pretty (3725 `div` 3600) +:+ "h "
       +:+ pretty ((3725 `mod` 3600) `div` 60) +:+ "m").
Proof.
  apply (formatDuration_whole_minutes 3725). lia.
Defined.

End HistoryFacts.

(* ================================================================== *)
(** ** Properties of the application controller *)
(* ================================================================== *)

Module AppFacts.
Import App.

Abbreviation ok_call := (Timer.breakWithin 60 43200).

(** *** Delivering the events of a call *)

Lemma perform_alt act idNow written a :
  perform act idNow written a =
    deliver idNow written (Timer.fired act (timer a))
            (set_timer (Timer.after act (timer a)) a).
Proof.
  unfold perform, Timer.fired, Timer.after. by destruct (act (timer a)).
Qed.

Lemma deliver_none idNow written es a :
  Timer.completions es = [] → deliver idNow written es a = Some a.
Proof.
  induction es as [|e es IH]; [done|].
  destruct e; cbn [deliver]; intros Hnone; try (by apply IH).
  discriminate Hnone.
Qed.

Lemma deliver_one idNow written es p a :
  Timer.completions es = [p] →
  deliver idNow written es a = handleComplete idNow written p a.
Proof.
  induction es as [|e es IH]; [done|].
  destruct e; cbn [deliver]; intros Hone; try (by apply IH).
  injection Hone as -> Hrest.
  destruct (handleComplete idNow written p a) as [a'|]; [|done].
  cbn. by apply deliver_none.
Qed.

Lemma exec_completions_cases c t :
  Timer.completions (Timer.fired (Timer.exec c) t) = []
  ∨ ∃ p, Timer.completions (Timer.fired (Timer.exec c) t) = [p].
Proof.
  rewrite TimerFacts.exec_completions.
  destruct c; try (by left).
  - case_bool_decide; [right; by eexists|by left].
  - destruct (_ && _); [right; by eexists|by left].
Qed.

(** The three outcomes of a timer call made by the application: no
    completion event; the completion of a break, after which the preset
    is set again; a completion that is logged. *)
Lemma perform_exec_cases c idNow written a a' :
  perform (Timer.exec c) idNow written a = Some a' →
  let t' := Timer.after (Timer.exec c) (timer a) in
  let ps := Timer.completions (Timer.fired (Timer.exec c) (timer a)) in
  (ps = [] ∧ a' = set_timer t' a)
  ∨ (∃ p, ps = [p] ∧ Timer.wasBreak p = true
          ∧ a' = set_timer
                   (Timer.after (Timer.exec (Timer.SetTime (currentPreset a))) t')
                   a)
  ∨ (∃ p s store',
       ps = [p] ∧ Timer.wasBreak p = false
       ∧ History.addSession idNow written p (sessions a) = Some (s, store')
       ∧ a' = (if Timer.completed p then set_breakModal true else id)
                (set_lastCompletedDuration (Timer.duration p)
                   (set_sessions store' (set_timer t' a)))).
Proof.
  rewrite perform_alt. intros Hrun t' ps.
  destruct (exec_completions_cases c (timer a)) as [Hnone|[p Hone]].
  - left. split; [done|]. rewrite deliver_none in Hrun by done.
    by injection Hrun as <-.
  - right. rewrite (deliver_one _ _ _ p) in Hrun by done.
    unfold handleComplete in Hrun.
    destruct (Timer.wasBreak p) eqn:Hb.
    + left. exists p. split; [done|]. split; [done|]. by injection Hrun as <-.
    + right. cbn [sessions set_timer] in Hrun.
      destruct (History.addSession idNow written p (sessions a))
        as [[s store']|] eqn:Hadd;
        [|done].
      exists p, s, store'. split; [done|]. split; [done|]. split; [done|].
      cbn in Hrun. injection Hrun as <-. by destruct (Timer.completed p).
Qed.

Lemma perform_exec_timer c idNow written a a' :
  Timer.reachable_by ok_call (timer a) →
  ok_call c →
  perform (Timer.exec c) idNow written a = Some a' →
  Timer.reachable_by ok_call (timer a')
  ∧ currentPreset a' = currentPreset a.
Proof.
  intros Hr Hc Hrun.
  assert (Hr' : Timer.reachable_by ok_call
                  (Timer.after (Timer.exec c) (timer a))) by by constructor.
  destruct (perform_exec_cases c idNow written a a' Hrun)
    as [[_ ->]|[(p & _ & _ & ->)|(p & s & store' & _ & _ & _ & ->)]].
  - done.
  - split; [|done]. cbn [timer set_timer]. by constructor.
  - by destruct (Timer.completed p).
Qed.

Lemma react_timer_reachable i now idNow written a a' :
  Timer.reachable_by ok_call (timer a) →
  react i now idNow written a = Some a' →
  Timer.reachable_by ok_call (timer a').
Proof.
  intros Hr Hrun. destruct i; cbn [react] in Hrun.
  - by eapply (perform_exec_timer (Timer.Toggle now)).
  - destruct (perform Timer.reset idNow written a) as [a1|] eqn:H1; [|done].
    cbn in Hrun.
    apply (perform_exec_timer Timer.Reset) in H1 as [Hr1 _]; [|done..].
    by eapply (perform_exec_timer (Timer.SetTime _)).
  - by eapply (perform_exec_timer (Timer.Abort now)).
  - case_bool_decide; [by injection Hrun as <-|].
    by eapply (perform_exec_timer (Timer.SetTime secs) idNow written
                 (set_currentPreset secs a)).
  - destruct (perform (Timer.adjustTime delta) idNow written a) as [a1|] eqn:H1;
      [|done].
    cbn in Hrun. injection Hrun as <-.
    by apply (perform_exec_timer (Timer.AdjustTime delta)) in H1 as [Hr1 _].
  - eapply (perform_exec_timer (Timer.StartBreak now idNow 300) idNow written
              (set_breakModal false a)); [done| |done]. simpl. lia.
  - eapply (perform_exec_timer (Timer.StartBreak now idNow 900) idNow written
              (set_breakModal false a)); [done| |done]. simpl. lia.
  - by eapply (perform_exec_timer (Timer.SetTime _) idNow written
                 (set_breakModal false a)).
  - by injection Hrun as <-.
  - by eapply (perform_exec_timer (Timer.IntervalFires now)).
Qed.

Lemma app_timer_reachable store a :
  reachable store a → Timer.reachable_by ok_call (timer a).
Proof.
  induction 1 as [|a i now idNow written a' _ IH Hrun]; [constructor|].
  by eapply react_timer_reachable.
Qed.

(** In the application, where breaks last 300 or 900 seconds, the timer
    keeps its bounds whatever the user does and whatever the store
    holds: [60 <= totalSeconds <= 43200] and
    [0 <= remainingSeconds <= totalSeconds]; the interval is held
    exactly while Running. *)
Theorem app_timer_within_bounds store a :
  reachable store a →
  60 ≤ Timer.totalSeconds (timer a) ≤ 43200
  ∧ 0 ≤ Timer.remainingSeconds (timer a) ≤ Timer.totalSeconds (timer a)
  ∧ (Timer.intervalId (timer a) = true
     ↔ Timer.state (timer a) = Timer.running).
Proof.
  intros Hr. apply app_timer_reachable in Hr.
  split; [by apply TimerFacts.total_bounds_reachable|]. split.
  - apply TimerFacts.remaining_bounds_reachable.
    eapply TimerFacts.reachable_by_weaken; [|exact Hr].
    intros [] Hc; simpl in *; try done. lia.
  - apply TimerFacts.interval_iff_running.
    by eapply TimerFacts.reachable_by_weaken; [|exact Hr].
Qed.

Lemma app_timer_within_bounds_witness :
  let a := App.set_timer
             (Timer.after (Timer.startBreak 1000 1000 300) Timer.initial)
             (App.set_breakModal false (App.initial None)) in
  60 ≤ Timer.totalSeconds (timer a) ≤ 43200
  ∧ 0 ≤ Timer.remainingSeconds (timer a) ≤ Timer.totalSeconds (timer a)
  ∧ (Timer.intervalId (timer a) = true
     ↔ Timer.state (timer a) = Timer.running).
Proof.
  apply (app_timer_within_bounds None).
  apply (reach_react None (App.initial None) ShortBreak 1000 1000 true).
  - apply reach_init.
  - reflexivity.
Defined.

(** *** What the application logs *)

Lemma coherent_of_reachable_by t :
  Timer.reachable_by ok_call t → Timer.coherent t.
Proof.
  intros Hr. apply TimerFacts.reachable_coherent.
  by apply (TimerFacts.reachable_by_weaken ok_call).
Qed.

Lemma app_timer_coherent store a : reachable store a → Timer.coherent (timer a).
Proof.
  intros Hr. by apply coherent_of_reachable_by, (app_timer_reachable store).
Qed.

Lemma perform_exec_quiet c idNow written a :
  Timer.completions (Timer.fired (Timer.exec c) (timer a)) = [] →
  perform (Timer.exec c) idNow written a
  = Some (set_timer (Timer.after (Timer.exec c) (timer a)) a).
Proof. intros Hq. rewrite perform_alt. by apply deliver_none. Qed.

Lemma perform_exec_one c idNow written a p :
  Timer.completions (Timer.fired (Timer.exec c) (timer a)) = [p] →
  perform (Timer.exec c) idNow written a
  = handleComplete idNow written p
      (set_timer (Timer.after (Timer.exec c) (timer a)) a).
Proof. intros Hq. rewrite perform_alt. by apply deliver_one. Qed.

(** A coherent timer has a start stamp whenever a call fires a
    completion event. *)
Lemma completion_needs_start c t :
  Timer.coherent t →
  Timer.completions (Timer.fired (Timer.exec c) t) ≠ [] →
  ∃ started, Timer.sessionStartTime t = Some started.
Proof.
  intros (Hint & _ & Hsst) Hfire.
  destruct (Timer.sessionStartTime t) as [started|] eqn:Hst; [by eexists|].
  destruct (Hsst eq_refl) as [Hidle Hfull]. exfalso. apply Hfire.
  rewrite TimerFacts.exec_completions. destruct c; try done.
  - rewrite bool_decide_false; [done|lia].
  - destruct (Timer.intervalId t) eqn:Hheld; [|done].
    rewrite (proj1 Hint eq_refl) in Hidle. discriminate.
Qed.

Lemma perform_exec_succeeds c idNow written a :
  Timer.coherent (timer a) →
  ∃ a', perform (Timer.exec c) idNow written a = Some a'.
Proof.
  intros Hcoh.
  destruct (exec_completions_cases c (timer a)) as [Hnone|[p Hone]].
  - rewrite perform_exec_quiet by done. by eexists.
  - rewrite (perform_exec_one _ _ _ _ p) by done.
    destruct (completion_needs_start c (timer a) Hcoh) as [started Hst];
      [by rewrite Hone|].
    assert (Hp : Timer.startTime p = Some started).
    { rewrite TimerFacts.exec_completions in Hone.
      destruct c; try done.
      - case_bool_decide; [|done]. by injection Hone as <-.
      - destruct (_ && _); [|done]. by injection Hone as <-. }
    unfold handleComplete. destruct (Timer.wasBreak p); [by eexists|].
    cbn [sessions set_timer].
    rewrite (HistoryFacts.addSession_started _ _ _ _ started) by done.
    cbn. by eexists.
Qed.

(** Whatever the user does, in whatever order, whatever the store
    holds and whether or not its writes go through, no handler of the
    application throws: every completion event the timer fires carries
    a start time, so [addSession] always succeeds. *)
Theorem app_never_throws store a i now idNow written :
  reachable store a →
  ∃ a', react i now idNow written a = Some a'.
Proof.
  intros Hr. pose proof (app_timer_coherent store a Hr) as Hcoh.
  destruct i; cbn [react].
  - apply (perform_exec_succeeds (Timer.Toggle now)); done.
  - destruct (perform_exec_succeeds Timer.Reset idNow written a Hcoh)
      as [a1 H1].
    change (Timer.exec Timer.Reset) with Timer.reset in H1.
    rewrite H1. cbn.
    apply (perform_exec_succeeds (Timer.SetTime _)).
    apply coherent_of_reachable_by.
    apply (perform_exec_timer Timer.Reset idNow written a a1);
      [by apply (app_timer_reachable store)|done|exact H1].
  - apply (perform_exec_succeeds (Timer.Abort now)); done.
  - case_bool_decide; [by eexists|].
    apply (perform_exec_succeeds (Timer.SetTime secs)). done.
  - destruct (perform_exec_succeeds (Timer.AdjustTime delta) idNow written a
                Hcoh) as [a1 H1].
    change (Timer.exec (Timer.AdjustTime delta))
      with (Timer.adjustTime delta) in H1.
    rewrite H1. by eexists.
  - apply (perform_exec_succeeds (Timer.StartBreak now idNow 300)). done.
  - apply (perform_exec_succeeds (Timer.StartBreak now idNow 900)). done.
  - apply (perform_exec_succeeds (Timer.SetTime _)). done.
  - by eexists.
  - apply (perform_exec_succeeds (Timer.IntervalFires now)); done.
Qed.

Lemma reachable_reacts store inputs : ∀ a a',
  reachable store a → reacts inputs a = Some a' → reachable store a'.
Proof.
  induction inputs as [|[[[i now] idNow] written] rest IH]; intros a a' Hr Hrun.
  - by injection Hrun as <-.
  - cbn [reacts] in Hrun.
    destruct (react i now idNow written a) as [a1|] eqn:H1; [|done].
    apply (IH a1); [|done]. by apply (reach_react store a i now idNow written).
Qed.

Lemma app_never_throws_witness :
  let a := default (App.initial None)
             (reacts ((ToggleStart, 0, 0, true) :: intervals 0 90)
                     (App.initial None)) in
  ∃ a', react ConfirmAbort 95000 95001 false a = Some a'.
Proof.
  apply (app_never_throws None _ ConfirmAbort 95000 95001 false).
  apply (reachable_reacts None ((ToggleStart, 0, 0, true) :: intervals 0 90)
           (App.initial None)).
  - apply reach_init.
  - vm_compute. reflexivity.
Defined.






(** When a break reaches zero, the next tick ends it without a trace in
    the log: the timer is Idle and shows the current preset again
    (clamped), no record is stored and no dialogue is opened. *)
Theorem finished_break_restores_preset store a now idNow written :
  reachable store a →
  Timer.isBreak (timer a) = true →
  Timer.state (timer a) = Timer.running →
  Timer.remainingSeconds (timer a) = 0 →
  react Interval now idNow written a =
    Some (set_timer
            (Timer.mkTimer Timer.idle
               (Timer.clampTime (currentPreset a))
               (Timer.clampTime (currentPreset a))
               false (Timer.sessionStartTime (timer a)) false
               (Timer.triggeredWarnings (timer a)))
            a).
Proof.
  intros Hr Hbrk Hrun Hz.
  pose proof (app_timer_coherent store a Hr) as (Hint & _).
  assert (Hheld : Timer.intervalId (timer a) = true) by by apply Hint.
  cbn [react].
  rewrite (perform_exec_one _ _ _ _
             {| Timer.duration := Timer.totalSeconds (timer a);
                Timer.startTime := Timer.sessionStartTime (timer a);
                Timer.endTime := now; Timer.completed := true;
                Timer.wasBreak := true |}).
  2:{ rewrite TimerFacts.exec_completions, Hheld, Hbrk.
      by rewrite bool_decide_true by lia. }
  unfold handleComplete. cbn [Timer.wasBreak timer set_timer currentPreset].
  f_equal. unfold set_timer. cbn [sessions currentPreset lastCompletedDuration
    breakModal]. f_equal.
  assert (Hafter : Timer.after (Timer.exec (Timer.IntervalFires now)) (timer a)
            = Timer.mkTimer Timer.idle (Timer.totalSeconds (timer a))
                (Timer.remainingSeconds (timer a)) false
                (Timer.sessionStartTime (timer a)) false
                (Timer.triggeredWarnings (timer a))).
  { unfold Timer.exec, Timer.reading, Timer.after. rewrite Hheld.
    apply (TimerFacts.after_tick_completes now (timer a)). lia. }
  rewrite Hafter. unfold Timer.after.
  by rewrite TimerFacts.setTime_not_running.
Qed.

Lemma finished_break_restores_preset_witness :
  let a := default (App.initial None)
             (reacts ((SetPreset 3600, 0, 0, true) :: (ShortBreak, 0, 0, true)
                      :: intervals 0 300) (App.initial None)) in
  react Interval 301000 301000 true a =
    Some (set_timer
            (Timer.mkTimer Timer.idle
               (Timer.clampTime (currentPreset a))
               (Timer.clampTime (currentPreset a))
               false (Timer.sessionStartTime (timer a)) false
               (Timer.triggeredWarnings (timer a)))
            a).
Proof.
  apply (finished_break_restores_preset None _ 301000 301000 true).
  - apply (reachable_reacts None
             ((SetPreset 3600, 0, 0, true) :: (ShortBreak, 0, 0, true)
              :: intervals 0 300)
             (App.initial None)).
    + apply reach_init.
    + vm_compute. reflexivity.
  - vm_compute. reflexivity.
  - vm_compute. reflexivity.
  - vm_compute. reflexivity.
Defined.

(** A break that is aborted after more than 60 seconds is handed to
    [addSession] as an aborted focus session: the record has
    [wasBreak = false].  When the write to the store goes through it is
    logged, so with room in the store it raises the aborted count by
    one and the all-time total by the elapsed break time, whatever the
    clock reads when the statistics are taken; when the write fails
    the log is as before. *)
Theorem aborted_break_is_logged_as_focus store a now idNow written clock clock' :
  reachable store a →
  Timer.isBreak (timer a) = true →
  60 < Timer.totalSeconds (timer a) - Timer.remainingSeconds (timer a) →
  ∃ a' s,
    react ConfirmAbort now idNow written a = Some a'
    ∧ History.wasBreak s = false
    ∧ History.completed s = false
    ∧ History.duration s
      = Timer.totalSeconds (timer a) - Timer.remainingSeconds (timer a)
    ∧ lastCompletedDuration a' = History.duration s
    ∧ (written = false → sessions a' = sessions a)
    ∧ (written = true →
       History.getSessions (sessions a')
       = History.pushed s (History.getSessions (sessions a))
       ∧ ((length (History.getSessions (sessions a)) < 1000)%nat →
          ∃ st st',
            History.getStats clock (sessions a) = Some st
            ∧ History.getStats clock' (sessions a') = Some st'
            ∧ History.abortedCount st' = History.abortedCount st + 1
            ∧ History.totalTime st'
              = History.totalTime st
                + (Timer.totalSeconds (timer a)
                   - Timer.remainingSeconds (timer a)))).
Proof.
  intros Hr Hbrk Hlong.
  pose proof (app_timer_coherent store a Hr) as Hcoh.
  destruct (completion_needs_start (Timer.Abort now) (timer a) Hcoh)
    as [started Hst].
  { rewrite TimerFacts.exec_completions. by rewrite bool_decide_true by lia. }
  cbn [react].
  change (Timer.abort now) with (Timer.exec (Timer.Abort now)).
  rewrite (perform_exec_one _ _ _ _
             {| Timer.duration := Timer.totalSeconds (timer a)
                                  - Timer.remainingSeconds (timer a);
                Timer.startTime := Timer.sessionStartTime (timer a);
                Timer.endTime := now; Timer.completed := false;
                Timer.wasBreak := false |}).
  2:{ rewrite TimerFacts.exec_completions. by rewrite bool_decide_true by lia. }
  unfold handleComplete. cbn [Timer.wasBreak sessions set_timer].
  rewrite (HistoryFacts.addSession_started _ _ _ _ started) by done.
  cbn [mbind option_bind Timer.completed Timer.duration].
  eexists _, (History.mkSession idNow started now
                (Timer.totalSeconds (timer a)
                 - Timer.remainingSeconds (timer a)) false false).
  split; [reflexivity|].
  unfold History.pushed, History.recordOf.
  cbn [sessions set_sessions set_lastCompletedDuration lastCompletedDuration
       History.getSessions
       History.wasBreak History.completed History.duration Timer.duration
       Timer.completed Timer.wasBreak Timer.endTime].
  split; [done|]. split; [done|]. split; [done|]. split; [done|].
  split; [by intros ->|]. intros ->. cbn [History.saveSessions History.getSessions].
  split; [done|].
  intros Hroom. rewrite bool_decide_false by lia.
  match goal with |- context [Some (?s :: _)] =>
    destruct (HistoryFacts.stats_after_cons clock clock' s (sessions a))
      as (st & st' & Hst0 & Hst1 & Htot & _ & Hab & _)
  end.
  exists st, st'. split; [done|]. split; [done|].
  cbn in Htot, Hab. split; [lia|lia].
Qed.

Lemma aborted_break_is_logged_as_focus_witness :
  let a := default (App.initial None)
             (reacts ((ShortBreak, 0, 0, true) :: intervals 0 90)
                     (App.initial None)) in
  let written := true in
  let clock := History.steady 94000 in
  let clock' := History.steady 96000 in
  ∃ a' s,
    react ConfirmAbort 95000 95001 written a = Some a'
    ∧ History.wasBreak s = false
    ∧ History.completed s = false
    ∧ History.duration s
      = Timer.totalSeconds (timer a) - Timer.remainingSeconds (timer a)
    ∧ lastCompletedDuration a' = History.duration s
    ∧ (written = false → sessions a' = sessions a)
    ∧ (written = true →
       History.getSessions (sessions a')
       = History.pushed s (History.getSessions (sessions a))
       ∧ ((length (History.getSessions (sessions a)) < 1000)%nat →
          ∃ st st',
            History.getStats clock (sessions a) = Some st
            ∧ History.getStats clock' (sessions a') = Some st'
            ∧ History.abortedCount st' = History.abortedCount st + 1
            ∧ History.totalTime st'
              = History.totalTime st
                + (Timer.totalSeconds (timer a)
                   - Timer.remainingSeconds (timer a)))).
Proof.
  apply (aborted_break_is_logged_as_focus None _ 95000 95001 true
           (History.steady 94000) (History.steady 96000)).
  - apply (reachable_reacts None ((ShortBreak, 0, 0, true) :: intervals 0 90)
             (App.initial None)).
    + apply reach_init.
    + vm_compute. reflexivity.
  - vm_compute. reflexivity.
  - vm_compute. reflexivity.
Defined.

(** The same abort with a store that refuses the write, evaluated: the
    handler returns, the log stays empty, and the duration of the lost
    record is still kept as the last completed duration. *)
Example aborted_break_write_fails :
  let a := default (App.initial None)
             (reacts ((ShortBreak, 0, 0, true) :: intervals 0 90)
                     (App.initial None)) in
  (sessions <$> react ConfirmAbort 95000 95001 false a) = Some None
  ∧ (lastCompletedDuration <$> react ConfirmAbort 95000 95001 false a)
    = Some 90.
Proof. vm_compute. done. Qed.

End AppFacts.
